(** * KMFNYC meme studio: the synthesis pipeline and the approval loop

    A shallow embedding of [services/geminiService.ts],
    [services/feedbackService.ts], [types.ts] and the approval handlers of
    [App.tsx], with the properties of the specification proved over it.

    Conventions of the embedding.
    - A JavaScript string is a [string]; a character stands for one code
      unit below 256.  [toLowerCase] and [trim] act as JavaScript does on
      these code units: the capital letters are 65-90 and 192-222 without
      215, the white space is 9-13, 32 and 160.
    - A promise that settles is a value of [Res]: [Ret v] when it fulfils,
      [Throw e] when it rejects.  A synchronous [throw] is a [Throw] as well.
    - The remote services (Gemini, OpenAI, Supabase), the [createClient] of
      supabase-js, the browser's [atob] and [crypto.randomUUID] are not code
      of the repository: their answers are fields of the records [CallEnv],
      [Runtime], [Backend] and [Project], and the theorems quantify over
      them.
    - [console.log], [console.warn] and [console.error] write to no state the
      program reads; they are left out. *)

From Stdlib Require Import Ascii String Lia.
From stdpp Require Import base list strings.

Local Open Scope string_scope.

(** ** JavaScript strings *)

Module Js.

(** [s.startsWith(p)] *)
Fixpoint startsWith (s p : string) : bool :=
  match p, s with
  | EmptyString, _ => true
  | String _ _, EmptyString => false
  | String c p', String d s' => if Ascii.eqb c d then startsWith s' p' else false
  end.

(** [s.includes(p)] *)
Fixpoint includes (s p : string) : bool :=
  startsWith s p ||
  match s with
  | EmptyString => false
  | String _ s' => includes s' p
  end.

Definition isUpper (n : nat) : bool :=
  ((65 <=? n)%nat && (n <=? 90)%nat) ||
  ((192 <=? n)%nat && (n <=? 222)%nat && negb (n =? 215)%nat).

Definition lower (c : ascii) : ascii :=
  let n := nat_of_ascii c in
  if isUpper n then ascii_of_nat (n + 32) else c.

(** [s.toLowerCase()] *)
Fixpoint toLowerCase (s : string) : string :=
  match s with
  | EmptyString => EmptyString
  | String c s' => String (lower c) (toLowerCase s')
  end.

(** [s.substring(0, n)] *)
Definition substring0 (n : nat) (s : string) : string := String.substring 0 n s.

(** [s.split(sep)] for a one-character separator. *)
Fixpoint split (sep : ascii) (s : string) : list string :=
  match s with
  | EmptyString => [EmptyString]
  | String c s' =>
      if Ascii.eqb c sep then EmptyString :: split sep s'
      else match split sep s' with
           | [] => [String c EmptyString]
           | w :: ws => String c w :: ws
           end
  end.

(** [s.replace(p, '')] for a string pattern [p]: the first occurrence of
    [p] is removed. *)
Fixpoint removeFirst (p s : string) : string :=
  if startsWith s p then String.substring (String.length p) (String.length s) s
  else match s with
       | EmptyString => EmptyString
       | String c s' => String c (removeFirst p s')
       end.

(** White space and line terminators, as [trim] strips them: tab, line
    feed, vertical tab, form feed, carriage return, space and no-break
    space. *)
Definition isSpace (c : ascii) : bool :=
  let n := nat_of_ascii c in
  (n =? 32)%nat || ((9 <=? n)%nat && (n <=? 13)%nat) || (n =? 160)%nat.

Fixpoint trimStart (s : string) : string :=
  match s with
  | EmptyString => EmptyString
  | String c s' => if isSpace c then trimStart s' else s
  end.

Fixpoint trimEnd (s : string) : string :=
  match s with
  | EmptyString => EmptyString
  | String c s' =>
      match trimEnd s' with
      | EmptyString => if isSpace c then EmptyString else String c EmptyString
      | t => String c t
      end
  end.

(** [s.trim()] *)
Definition trim (s : string) : string := trimEnd (trimStart s).

Definition dquote : ascii := "034"%char.

Fixpoint dropLastQuote (s : string) : string :=
  match s with
  | EmptyString => EmptyString
  | String c EmptyString => if Ascii.eqb c dquote then EmptyString else s
  | String c s' => String c (dropLastQuote s')
  end.

(** [s.replace(/^"|"$/g, '')]: one leading and one trailing double quote
    are removed. *)
Definition stripQuotes (s : string) : string :=
  dropLastQuote
    match s with
    | String c s' => if Ascii.eqb c dquote then s' else s
    | EmptyString => EmptyString
    end.

(** [!s] for a string: only the empty string is falsy. *)
Definition falsy (s : string) : bool :=
  match s with EmptyString => true | _ => false end.

End Js.

(** ** Exceptions and settled promises *)

(** What a [throw] carries: an [Error] object with its message, or any other
    value ([error instanceof Error] is false for it). *)
Inductive exn : Type :=
  | Error (message : string)
  | NonError.

Inductive Res (A : Type) : Type :=
  | Ret (a : A)
  | Throw (e : exn).
Arguments Ret {A} a.
Arguments Throw {A} e.

Definition bind {A B} (m : Res A) (k : A -> Res B) : Res B :=
  match m with
  | Ret a => k a
  | Throw e => Throw e
  end.

(** [try { m } catch (e) { h e }] *)
Definition try_catch {A} (m : Res A) (h : exn -> Res A) : Res A :=
  match m with
  | Ret a => Ret a
  | Throw e => h e
  end.

Global Instance Res_ret : MRet Res := @Ret.
Global Instance Res_bind : MBind Res := fun A B k m => bind m k.

Definition returns {A} (m : Res A) : Prop := exists a, m = Ret a.
Definition raises {A} (m : Res A) : Prop := exists e, m = Throw e.

(** ** Data model ([types.ts]) *)

Inductive Model : Type := gemini | dalle.
Inductive Status : Type := pending | approved | rejected.

Global Instance Model_eq_dec : EqDecision Model.
Proof. solve_decision. Defined.
Global Instance Status_eq_dec : EqDecision Status.
Proof. solve_decision. Defined.

Module MemeConcept.
Record t : Type := mk {
  topText : string;
  bottomText : string;
  imagePrompt : string;
}.
End MemeConcept.

Module ApprovedMemeConcept.
Record t : Type := mk {
  topText : string;
  bottomText : string;
  imagePrompt : string;
  modelUsed : Model;
}.
End ApprovedMemeConcept.

Module GeneratedMeme.
Record t : Type := mk {
  topText : string;
  bottomText : string;
  imagePrompt : string;
  id : string;
  imageUrl : string;
  altText : string;
  status : Status;
  modelUsed : Model;
}.

(** [{ ...meme, status }] *)
Definition with_status (s : Status) (m : t) : t :=
  mk (topText m) (bottomText m) (imagePrompt m) (id m) (imageUrl m)
     (altText m) s (modelUsed m).

(** The concept a meme extends ([GeneratedMeme extends MemeConcept]). *)
Definition concept (m : t) : MemeConcept.t :=
  MemeConcept.mk (topText m) (bottomText m) (imagePrompt m).
End GeneratedMeme.

(** The [{ gemini: number, dalle: number }] object of the estimator.  Every
    value the program builds has the counts 2 and 3. *)
Module Preference.
Record t : Type := mk { gemini : nat; dalle : nat }.
End Preference.

(** ** The image and text services ([services/geminiService.ts]) *)

Definition GEMINI_PLACEHOLDER_IMAGE_URL : string :=
  "data:image/svg+xml;base64,PHN2ZyB3aWR0aD0iNTEyIiBoZWlnaHQ9IjUxMiIgdmlld0JveD0iMCAwIDUxMiA1MTIiIHhtbG5zPSJodHRwOi8vd3d3LnczLm9yZy8yMDAwL3N2ZyI+PHJlY3QgZmlsbD0iIzExMTgyNyIgd2lkdGg9IjUxMiIgaGVpZhtPSI1MTIiLz48dGV4dCB4PSI1MCUiIHk9IjQ4JSIgZG9taW5hbnQtYmFzZWxpbmU9Im1pZGRsZSIgdGV4dC1hbmNob3I9Im1pZGRsZSIgZm9udC1mYW1pbHk9InNhbnMtc2VyaWYiIGZvbnQtc2l6ZT0iMzJweCIgZmlsbD0iI2Y4NzE3MSIgZm9udC13ZWlnaHQ9ImJvbGQiPlRIRSBBSSBHT1QgU0hZPC90ZXh0Pjx0ZXh0IHg9IjUwJSIgeT0iNTglIiBkb21pbmFhbnQtYmFzZWxpbmU9Im1pZGRsZSIgdGV4dC1hbmNob3I9Im1pZGRsZSIgZm9udC1mYW1pbHk9InNhbnMtc2VyaWYiIGZvbnQtc2l6ZT0iMThweCIgZmlsbD0iI2VhYTNmIj5JbWFnZSBnZW5lcmF0aW9uIGZhaWxlZC48L3RleHQ+PC9zdmc+".

Definition DALLE_PLACEHOLDER_IMAGE_URL : string :=
  "data:image/svg+xml;base64,PHN2ZyB3aWR0aD0iNTEyIiBoZWlnaHQ9IjUxMiIgdmlld0JveD0iMCAwIDUxMiA1MTIiIHhtbG5zPSJodHRwOi8vd3d3LnczLm9yZy8yMDAwL3N2ZyI+PHJlY3QgZmlsbD0iIzFlMWI0YiIgd2lkdGg9IjUxMiIgaGVpZ2h0PSI1MTIiLz48dGV4dCB4PSI1MCUiIHk9IjQ4JSIgZG9taW5hbnQtYmFzZWxpbmU9Im1pZGRsZSIgdGV4dC1hbmNob3I9Im1pZGRsZSIgZm9udC1mYW1pbHk9InNhbnMtc2VyaWYiIGZvbnQtc2l6ZT0iMzJweCIgZmlsbD0iI2E3OGJmYSIgZm9udC1wZWlnaHQ9ImJvbGQiPkRBTFktRSAzIEFUIFRIRSBFQVNFTDwvdGV4dD48dGV4dCB4PSI1MCUiIHk9IjU4JSIgZG9taW5hbnQtYmFzZWxpbmU9Im1pZGRsZSIgdGV4dC1hbmNob3I9Im1pZGRsZSIgZm9udC1mYW1pbHk9InNhbnMtc2VyaWYiIGZvbnQtc2l6ZT0iMThweCIgZmlsbD0iI2M0YjVmZCI+U2ltdWxhdGluZyBPcGVuQUkgaW1hZ2UgZ2VuZXJhdGlvbi48L3RleHQ+PC9zdmc+".

(** The answers of the remote services to one chain of calls. *)

Record InlineData : Type := { data : string; mimeType : string }.

(** A part of a Gemini candidate; [inlineData] is absent on text parts. *)
Record Part : Type := { inlineData : option InlineData }.

(** [ai.models.generateContent] for an image: it rejects, or resolves to a
    response whose [candidates?.[0]?.content?.parts] is an array or is
    undefined. *)
Inductive ImageResponse : Type :=
  | ImageRejects (e : exn)
  | ImageResolves (parts : option (list Part)).

(** [ai.models.generateContent] for a text: it rejects, or resolves to a
    response whose [text] is a string or is undefined. *)
Inductive TextResponse : Type :=
  | TextRejects (e : exn)
  | TextResolves (text : option string).

(** The body of an HTTP response of OpenAI as [apiResponse.json()] sees it:
    no JSON at all, the JSON value [null], or a value whose
    [data?.[0]?.b64_json] is a string or is undefined. *)
Inductive JsonBody : Type :=
  | NotJson (e : exn)
  | JsonNull
  | JsonValue (b64_json : option string).

Inductive FetchResult : Type :=
  | NetworkError (e : exn)
  | HttpResponse (ok : bool) (body : JsonBody).

Record CallEnv : Type := {
  (** Gemini's answer to the image request with this text. *)
  gemini_image : string -> ImageResponse;
  (** OpenAI's answer to the request with this prompt and this bearer key. *)
  openai_fetch : string -> string -> FetchResult;
  (** Gemini's answer to the alt-text request built from this concept. *)
  gemini_text : MemeConcept.t -> TextResponse;
}.

(** The message of the [TypeError] of reading a property of [null] or
    [undefined] (the text is the engine's). *)
Definition TypeError : exn := Error "Cannot read properties of undefined".

Definition hasInlineData (p : Part) : bool :=
  match inlineData p with Some _ => true | None => false end.

(** The whole body stands in one [try]; whatever throws there, the logging
    of the response included, ends in the [catch]. *)
Definition generateImage (w : CallEnv) (prompt : string) : Res string :=
  try_catch
    (match gemini_image w
             ("In a vibrant, high contrast, pop art meme aesthetic: " +:+ prompt +:+
              ". IMPORTANT: The generated image must not contain any text, letters, words, or numbers. It should be purely visual.") with
     | ImageRejects e => Throw e
     | ImageResolves parts =>
         let part := parts ≫= List.find hasInlineData in
         match part ≫= inlineData with
         | Some i => Ret ("data:" +:+ mimeType i +:+ ";base64," +:+ data i)
         | None => Ret GEMINI_PLACEHOLDER_IMAGE_URL
         end
     end)
    (fun _ => Ret GEMINI_PLACEHOLDER_IMAGE_URL).

Definition generateImageWithDalle (w : CallEnv) (prompt apiKey : string) : Res string :=
  if Js.falsy apiKey then Ret DALLE_PLACEHOLDER_IMAGE_URL
  else
    let dallePrompt :=
      prompt +:+ ". IMPORTANT: The generated image must not contain any text, letters, words, or numbers. It should be purely visual." in
    match openai_fetch w dallePrompt apiKey with
    | NetworkError _ => Ret DALLE_PLACEHOLDER_IMAGE_URL
    | HttpResponse false _ => Ret DALLE_PLACEHOLDER_IMAGE_URL
    | HttpResponse true body =>
        (* [await apiResponse.json()] and [data.data] stand outside every
           [try] of the function *)
        base64Image ← match body with
                      | NotJson e => Throw e
                      | JsonNull => Throw TypeError
                      | JsonValue b => Ret b
                      end;
        match base64Image with
        | None | Some EmptyString => Ret DALLE_PLACEHOLDER_IMAGE_URL
        | Some b => Ret ("data:image/png;base64," +:+ b)
        end
    end.

Module ImageResult.
Record t : Type := mk { imageUrl : string; modelUsed : Model }.
End ImageResult.

Definition generateMemeImageWithFallback
    (w : CallEnv) (prompt : string) (model : Model) (openAiApiKey : string)
  : Res ImageResult.t :=
  if bool_decide (model = dalle) && Js.falsy openAiApiKey then
    imageUrl ← generateImage w prompt;
    Ret (ImageResult.mk imageUrl gemini)
  else
    imageUrl ← (if bool_decide (model = dalle)
                then generateImageWithDalle w prompt openAiApiKey
                else generateImage w prompt);
    Ret (ImageResult.mk imageUrl model).

(** The string of the [catch] branch of [generateImageAltText]. *)
Definition altTextFallback (concept : MemeConcept.t) : string :=
  "Kiss My Face New York meme: " +:+ MemeConcept.topText concept +:+ " - " +:+
  MemeConcept.bottomText concept +:+ ". Image: " +:+
  Js.substring0 50 (MemeConcept.imagePrompt concept) +:+ "...".

Definition generateImageAltText (w : CallEnv) (concept : MemeConcept.t) : Res string :=
  try_catch
    (match gemini_text w concept with
     | TextRejects e => Throw e
     | TextResolves None => Throw TypeError
     | TextResolves (Some text) => Ret (Js.stripQuotes (Js.trim text))
     end)
    (fun _ => Ret (altTextFallback concept)).

(** ** Batch assembly *)

(** What a batch sees of the outside: the services as the callback of the
    concept at each index reaches them, the values of the successive calls
    of [crypto.randomUUID], and the order in which the callbacks of
    [concepts.map] get past their two [await]s. *)
Record Runtime : Type := {
  world : nat -> CallEnv;
  randomUUID : nat -> string;
  completion : list nat;
}.

(** The place of [i] in [l]: how many callbacks finished before callback [i]. *)
Fixpoint position (i : nat) (l : list nat) : nat :=
  match l with
  | [] => 0
  | j :: l' => if decide (i = j) then 0 else S (position i l')
  end.

(** The rejection that settles [Promise.all]: that of the first promise, in
    the order of completion, that rejects. *)
Fixpoint firstRejection {A} (ps : list (Res A)) (order : list nat) : option exn :=
  match order with
  | [] => None
  | i :: rest =>
      match ps !! i with
      | Some (Throw e) => Some e
      | _ => firstRejection ps rest
      end
  end.

Fixpoint allFulfilled {A} (ps : list (Res A)) : Res (list A) :=
  match ps with
  | [] => Ret []
  | p :: ps' => a ← p; rest ← allFulfilled ps'; Ret (a :: rest)
  end.

(** [Promise.all(ps)]: the values in the order of [ps], or the first
    rejection. *)
Definition Promise_all {A} (order : list nat) (ps : list (Res A)) : Res (list A) :=
  match firstRejection ps order with
  | Some e => Throw e
  | None => allFulfilled ps
  end.

(** [[...Array(g).fill('gemini'), ...Array(d).fill('dalle')]] *)
Definition generatorSchedule (modelPreference : Preference.t) : list Model :=
  replicate (Preference.gemini modelPreference) gemini ++
  replicate (Preference.dalle modelPreference) dalle.

(** [generatorSchedule[index] || 'gemini'] *)
Definition scheduledModel (modelPreference : Preference.t) (index : nat) : Model :=
  default gemini (generatorSchedule modelPreference !! index).

(** The callback of [concepts.map].  It draws its identifier once its two
    [await]s are over, so the callback that finishes [k]-th draws the [k]-th
    value of [crypto.randomUUID]; when a callback rejects, the batch rejects
    and no identifier is seen. *)
Definition memePromise
    (rt : Runtime) (modelPreference : Preference.t) (openAiApiKey : string)
    (index : nat) (concept : MemeConcept.t) : Res GeneratedMeme.t :=
  let scheduledModel := scheduledModel modelPreference index in
  r ← generateMemeImageWithFallback (world rt index)
         (MemeConcept.imagePrompt concept) scheduledModel openAiApiKey;
  altText ← generateImageAltText (world rt index) concept;
  Ret {| GeneratedMeme.topText := MemeConcept.topText concept;
         GeneratedMeme.bottomText := MemeConcept.bottomText concept;
         GeneratedMeme.imagePrompt := MemeConcept.imagePrompt concept;
         GeneratedMeme.id := randomUUID rt (position index (completion rt));
         GeneratedMeme.imageUrl := ImageResult.imageUrl r;
         GeneratedMeme.altText := altText;
         GeneratedMeme.status := pending;
         GeneratedMeme.modelUsed := ImageResult.modelUsed r |}.

(** [conceptsPromise] settles to a rejection, to no list ([null] or
    [undefined], which [!concepts] catches) or to a list. *)
Definition processConceptsIntoMemes
    (rt : Runtime) (conceptsPromise : Res (option (list MemeConcept.t)))
    (modelPreference : Preference.t) (openAiApiKey : string)
  : Res (list GeneratedMeme.t) :=
  concepts ← conceptsPromise;
  match concepts with
  | None | Some [] => Throw (Error "AI did not return any meme concepts.")
  | Some concepts =>
      Promise_all (completion rt)
        (imap (memePromise rt modelPreference openAiApiKey) concepts)
  end.

(** ** The approval store ([services/feedbackService.ts]) *)

Definition MAX_EXAMPLES : nat := 10.

(** The client that [createClient(url, key)] returns: a handle on the
    project of that [url], used with that [key]. *)
Record SupabaseClient : Type := { client_url : string; client_key : string }.

Record Blob : Type := { blob_bytes : string; blob_type : string }.

(** A row of [approved_memes] as [select] returns it and as [insert] sends it. *)
Record SelectedRow : Type := {
  sel_top_text : string;
  sel_bottom_text : string;
  sel_image_prompt : string;
  sel_model_used : Model;
}.

Record InsertedRow : Type := {
  row_id : string;
  top_text : string;
  bottom_text : string;
  image_prompt : string;
  model_used : Model;
  image_url : string;
}.

Inductive SelectResult : Type :=
  | SelectRejects (e : exn)
  | SelectError (message : string)
  | SelectData (rows : list SelectedRow).

(** The browser, supabase-js and the Supabase project.  [storage_upload]
    and [table_insert] answer with the [message] of the [error] they report,
    if any; [atob] answers [None] where the browser throws;
    [createClient_throws] answers with what [createClient] throws for a
    [url] and [key] it does not accept (a [url] that is no http or https
    address, for one), and [None] where it returns the client. *)
Record Backend : Type := {
  createClient_throws : string -> string -> option exn;
  atob : string -> option string;
  storage_upload : SupabaseClient -> string -> Blob -> option string;
  storage_getPublicUrl : SupabaseClient -> string -> string;
  table_insert : SupabaseClient -> InsertedRow -> option string;
  table_select : SupabaseClient -> nat -> SelectResult;
}.

(** The requests a call sends to the Supabase project, in order. *)
Inductive StoreCall : Type :=
  | Upload (filePath : string) (imageBlob : Blob)
  | Insert (row : InsertedRow).

(** [createClient(url, key)] of supabase-js, which sends no request. *)
Definition createClient (throws : string -> string -> option exn) (url key : string)
  : Res SupabaseClient :=
  match throws url key with
  | Some e => Throw e
  | None => Ret {| client_url := url; client_key := key |}
  end.

(** [getSupabaseClient] as its callers see it.  The module keeps the last
    client and calls [createClient] again when [url] or [key] changes, or
    when no client was kept; [createClient] answers the same on the same
    [url] and [key], so the call returns the client of the [url] and [key]
    given, or throws what [createClient] throws for them
    ([getSupabaseClientMemo] below has the module variables). *)
Definition getSupabaseClient (throws : string -> string -> option exn) (url key : string)
  : Res SupabaseClient :=
  if Js.falsy url || Js.falsy key
  then Throw (Error "Supabase URL and Anon Key are required.")
  else createClient throws url key.

(** [atob(base64String.split(',')[1])]: a missing second piece is
    [undefined], which [atob] reads as the text [undefined]. *)
Definition base64ToBlob (be : Backend) (base64String mimeType : string) : Res Blob :=
  match atob be (default "undefined" (Js.split "," base64String !! 1)) with
  | None => Throw (Error "The string to be decoded is not correctly encoded.")
  | Some byteCharacters => Ret {| blob_bytes := byteCharacters; blob_type := mimeType |}
  end.

Definition getApprovedMemes (be : Backend) (supabaseUrl supabaseAnonKey : string)
  : Res (list ApprovedMemeConcept.t) :=
  if Js.falsy supabaseUrl || Js.falsy supabaseAnonKey then Ret []
  else
    try_catch
      (client ← getSupabaseClient (createClient_throws be) supabaseUrl supabaseAnonKey;
       match table_select be client MAX_EXAMPLES with
       | SelectRejects e => Throw e
       | SelectError _ => Throw NonError
       | SelectData data =>
           Ret (List.map (fun item =>
                  ApprovedMemeConcept.mk (sel_top_text item) (sel_bottom_text item)
                    (sel_image_prompt item) (sel_model_used item)) data)
       end)
      (fun _ => Ret []).

(** The three errors of a failed upload and the two of a failed insert. *)
Definition UPLOAD_POLICY_DENIED : exn :=
  Error "Failed to upload image: Supabase storage is blocking the upload due to a missing or incomplete security policy. Please run the full 'Storage Policy SQL' from the Admin panel, which must include INSERT, UPDATE, and SELECT permissions.".
Definition UPLOAD_BUCKET_NOT_FOUND : exn :=
  Error "Failed to upload image: The 'memes' storage bucket was not found. Please verify your Supabase setup.".
Definition UPLOAD_FAILED : exn :=
  Error "Failed to upload meme image to the backend.".
Definition INSERT_POLICY_DENIED : exn :=
  Error "Failed to save metadata: The 'approved_memes' table is blocking the action due to a missing security policy. Please run the full 'Table Policy SQL' from the Admin panel.".

(** The [throw] chosen from the message of [uploadError]. *)
Definition uploadFailure (message : string) : exn :=
  let errorMessage := Js.toLowerCase message in
  if Js.includes errorMessage "security policy" ||
     Js.includes errorMessage "violates row-level security"
  then UPLOAD_POLICY_DENIED
  else if Js.includes errorMessage "not found"
  then UPLOAD_BUCKET_NOT_FOUND
  else UPLOAD_FAILED.

(** The [throw] chosen from the message of [insertError]. *)
Definition insertFailure (message : string) : exn :=
  let errorMessage := Js.toLowerCase message in
  if Js.includes errorMessage "security policy for table" ||
     Js.includes errorMessage "violates row-level security"
  then INSERT_POLICY_DENIED
  else Error ("Failed to save meme metadata: " +:+ message).

(** [addApprovedMeme] with the requests it sent. *)
Definition addApprovedMeme
    (be : Backend) (newMeme : GeneratedMeme.t) (supabaseUrl supabaseAnonKey : string)
  : list StoreCall * Res () :=
  match getSupabaseClient (createClient_throws be) supabaseUrl supabaseAnonKey with
  | Throw e => ([], Throw e)
  | Ret client =>
      let mimeType :=
        if Js.startsWith (GeneratedMeme.imageUrl newMeme) "data:image/png"
        then "image/png" else "image/jpeg" in
      match base64ToBlob be (GeneratedMeme.imageUrl newMeme) mimeType with
      | Throw e => ([], Throw e)
      | Ret imageBlob =>
          let filePath :=
            "public/" +:+ GeneratedMeme.id newMeme +:+ "." +:+
            default "undefined" (Js.split "/" mimeType !! 1) in
          match storage_upload be client filePath imageBlob with
          | Some message => ([Upload filePath imageBlob], Throw (uploadFailure message))
          | None =>
              let publicImageUrl := storage_getPublicUrl be client filePath in
              let row :=
                {| row_id := GeneratedMeme.id newMeme;
                   top_text := GeneratedMeme.topText newMeme;
                   bottom_text := GeneratedMeme.bottomText newMeme;
                   image_prompt := GeneratedMeme.imagePrompt newMeme;
                   model_used := GeneratedMeme.modelUsed newMeme;
                   image_url := publicImageUrl |} in
              match table_insert be client row with
              | Some message =>
                  ([Upload filePath imageBlob; Insert row], Throw (insertFailure message))
              | None => ([Upload filePath imageBlob; Insert row], Ret ())
              end
          end
      end
  end.

(** The four ways [addApprovedMeme] ends: before any request, on a refused
    upload, on a refused insert, or with the row written. *)
Inductive WriteOutcome (be : Backend) (url key : string)
  : list StoreCall -> Res () -> Prop :=
  | NothingSent e :
      WriteOutcome be url key [] (Throw e)
  | UploadRefused client filePath imageBlob message :
      getSupabaseClient (createClient_throws be) url key = Ret client ->
      storage_upload be client filePath imageBlob = Some message ->
      WriteOutcome be url key [Upload filePath imageBlob] (Throw (uploadFailure message))
  | InsertRefused client filePath imageBlob row message :
      getSupabaseClient (createClient_throws be) url key = Ret client ->
      storage_upload be client filePath imageBlob = None ->
      table_insert be client row = Some message ->
      WriteOutcome be url key [Upload filePath imageBlob; Insert row]
        (Throw (insertFailure message))
  | Written client filePath imageBlob row :
      getSupabaseClient (createClient_throws be) url key = Ret client ->
      storage_upload be client filePath imageBlob = None ->
      table_insert be client row = None ->
      WriteOutcome be url key [Upload filePath imageBlob; Insert row] (Ret ()).

(** [getModelPreference] on the list [getApprovedMemes] resolved to. *)
Definition modelPreferenceOf (approved : list ApprovedMemeConcept.t) : Preference.t :=
  if decide (length approved = 0) then Preference.mk 3 2
  else
    let dalleCount :=
      length (filter (fun m => ApprovedMemeConcept.modelUsed m = dalle) approved) in
    let geminiCount := length approved - dalleCount in
    (* [dalleCount > geminiCount] *)
    if decide (geminiCount < dalleCount) then Preference.mk 2 3 else Preference.mk 3 2.

Definition getModelPreference (be : Backend) (supabaseUrl supabaseAnonKey : string)
  : Res Preference.t :=
  approved ← getApprovedMemes be supabaseUrl supabaseAnonKey;
  Ret (modelPreferenceOf approved).

(** The concept requests of [getMemeConceptsFromHeadline] and
    [getMemeConceptsFromInspiration], and what the text model makes of them:
    the promise rejects (the call or [JSON.parse] throws) or resolves to
    [parsed.memes]. *)
Inductive ConceptRequest : Type :=
  | FromHeadline (headline : string)
  | FromInspiration (links customPrompt : string).

Definition ConceptService : Type :=
  ConceptRequest -> list ApprovedMemeConcept.t -> Res (option (list MemeConcept.t)).

Definition generateMemesFromHeadline
    (be : Backend) (rt : Runtime) (concepts : ConceptService)
    (headline : string) (examples : list ApprovedMemeConcept.t)
    (openAiApiKey supabaseUrl supabaseAnonKey : string) : Res (list GeneratedMeme.t) :=
  modelPreference ← getModelPreference be supabaseUrl supabaseAnonKey;
  processConceptsIntoMemes rt (concepts (FromHeadline headline) examples)
    modelPreference openAiApiKey.

Definition generateMemesFromInspiration
    (be : Backend) (rt : Runtime) (concepts : ConceptService)
    (links customPrompt : string) (examples : list ApprovedMemeConcept.t)
    (openAiApiKey supabaseUrl supabaseAnonKey : string) : Res (list GeneratedMeme.t) :=
  modelPreference ← getModelPreference be supabaseUrl supabaseAnonKey;
  processConceptsIntoMemes rt (concepts (FromInspiration links customPrompt) examples)
    modelPreference openAiApiKey.

(** ** The review session ([App.tsx]) *)

Definition getFriendlyErrorMessage (error : exn) : string :=
  match error with
  | Error message =>
      if Js.includes message "OpenAI Billing Limit Reached" then message
      else if Js.includes (Js.toLowerCase message) "quota" ||
              Js.includes message "RESOURCE_EXHAUSTED"
      then "API Quota Exceeded: Please check your plan and billing details with the API provider."
      else if Js.includes message "DALL-E API Error:" ||
              Js.includes message "Invalid response from OpenAI API"
      then "OpenAI Error: " +:+ Js.removeFirst "DALL-E API Error: " message
      else if Js.includes message "Invalid response from Gemini API"
      then "Gemini Error: " +:+ message
      else "An AI service failed. This could be due to a temporary outage or a rejected prompt. Please adjust your input or try again later."
  | NonError => "An unknown error occurred. Please check the console and try again."
  end.

(** The state of the component [App] that the handlers below read or write. *)
Module Session.
Record t : Type := mk {
  headline : string;
  customPrompt : string;
  instagramLinks : string;
  memes : list GeneratedMeme.t;
  isLoading : bool;
  error : option string;
  emailSent : bool;
  openAiApiKey : string;
  supabaseUrl : string;
  supabaseAnonKey : string;
  isSupabaseConnected : bool;
}.

Definition setMemes (f : list GeneratedMeme.t -> list GeneratedMeme.t) (s : t) : t :=
  mk (headline s) (customPrompt s) (instagramLinks s) (f (memes s)) (isLoading s)
     (error s) (emailSent s) (openAiApiKey s) (supabaseUrl s) (supabaseAnonKey s)
     (isSupabaseConnected s).

Definition setError (e : option string) (s : t) : t :=
  mk (headline s) (customPrompt s) (instagramLinks s) (memes s) (isLoading s)
     e (emailSent s) (openAiApiKey s) (supabaseUrl s) (supabaseAnonKey s)
     (isSupabaseConnected s).

Definition setIsLoading (b : bool) (s : t) : t :=
  mk (headline s) (customPrompt s) (instagramLinks s) (memes s) b
     (error s) (emailSent s) (openAiApiKey s) (supabaseUrl s) (supabaseAnonKey s)
     (isSupabaseConnected s).

Definition setEmailSent (b : bool) (s : t) : t :=
  mk (headline s) (customPrompt s) (instagramLinks s) (memes s) (isLoading s)
     (error s) b (openAiApiKey s) (supabaseUrl s) (supabaseAnonKey s)
     (isSupabaseConnected s).
End Session.

Inductive GeneratorType : Type := headlineGenerator | inspirationGenerator.

Definition runMemeGeneration
    (be : Backend) (rt : Runtime) (concepts : ConceptService)
    (generatorType : GeneratorType) (s : Session.t) : Session.t :=
  if Session.isLoading s then s
  else if negb (Session.isSupabaseConnected s) then
    Session.setError
      (Some "Please configure and test your Supabase connection in the admin panel to generate memes.") s
  else
    let s1 := Session.setEmailSent false
                (Session.setMemes (fun _ => [])
                   (Session.setError None (Session.setIsLoading true s))) in
    let url := Session.supabaseUrl s in
    let key := Session.supabaseAnonKey s in
    let generated :=
      examples ← getApprovedMemes be url key;
      match generatorType with
      | headlineGenerator =>
          generateMemesFromHeadline be rt concepts (Session.headline s) examples
            (Session.openAiApiKey s) url key
      | inspirationGenerator =>
          generateMemesFromInspiration be rt concepts (Session.instagramLinks s)
            (Session.customPrompt s) examples (Session.openAiApiKey s) url key
      end in
    Session.setIsLoading false
      match generated with
      | Ret generatedMemes => Session.setMemes (fun _ => generatedMemes) s1
      | Throw err => Session.setError (Some (getFriendlyErrorMessage err)) s1
      end.

Definition handleStatusChange (id : string) (status : Status) (s : Session.t) : Session.t :=
  Session.setMemes
    (List.map (fun meme =>
       if decide (GeneratedMeme.id meme = id)
       then GeneratedMeme.with_status status meme else meme)) s.

(** [handleApprove] with the requests the store received meanwhile. *)
Definition handleApprove (be : Backend) (id : string) (s : Session.t)
  : Session.t * list StoreCall :=
  if negb (Session.isSupabaseConnected s) then
    (Session.setError
       (Some "Please test and verify your Supabase connection in the admin panel.") s, [])
  else
    match List.find (fun meme => bool_decide (GeneratedMeme.id meme = id)) (Session.memes s) with
    | None => (s, [])
    | Some memeToApprove =>
        let s1 := handleStatusChange id approved s in
        match addApprovedMeme be memeToApprove
                (Session.supabaseUrl s) (Session.supabaseAnonKey s) with
        | (calls, Ret _) => (s1, calls)
        | (calls, Throw err) =>
            (Session.setError (Some (getFriendlyErrorMessage err))
               (handleStatusChange id pending s1), calls)
        end
    end.

Definition handleReject (id : string) (s : Session.t) : Session.t :=
  handleStatusChange id rejected s.

(** ** Counting and sample environments *)

(** How many entries of the history were made by [model]. *)
Definition countOf (model : Model) (history : list ApprovedMemeConcept.t) : nat :=
  length (filter (fun m => ApprovedMemeConcept.modelUsed m = model) history).

(** Services that answer nothing useful: no image part, no connection to
    OpenAI, no text. *)
Definition silentServices : CallEnv :=
  {| gemini_image := fun _ => ImageResolves None;
     openai_fetch := fun _ _ => NetworkError NonError;
     gemini_text := fun _ => TextResolves None |}.

(** Services that answer every request well. *)
Definition workingServices : CallEnv :=
  {| gemini_image := fun _ =>
       ImageResolves (Some [ {| inlineData := None |};
                             {| inlineData := Some {| data := "R0lGOD"; mimeType := "image/png" |} |} ]);
     openai_fetch := fun _ _ => HttpResponse true (JsonValue (Some "iVBORw0KGgo"));
     gemini_text := fun _ => TextResolves (Some "  A vibrant pop art meme  ") |}.

(** OpenAI answers with status 200 and a body that is no JSON. *)
Definition brokenOpenAi : CallEnv :=
  {| gemini_image := gemini_image workingServices;
     openai_fetch := fun _ _ =>
       HttpResponse true (NotJson (Error "Unexpected token < in JSON at position 0"));
     gemini_text := gemini_text workingServices |}.

Definition sampleConcept (n : string) : MemeConcept.t :=
  MemeConcept.mk ("top " +:+ n) ("bottom " +:+ n) ("prompt " +:+ n).

Definition fiveConcepts : list MemeConcept.t :=
  [sampleConcept "1"; sampleConcept "2"; sampleConcept "3"; sampleConcept "4";
   sampleConcept "5"].

(** A generator of identifiers whose draws never collide. *)
Fixpoint sampleUUID (k : nat) : string :=
  match k with
  | 0 => "-4136c566a962"
  | S k' => String "a" (sampleUUID k')
  end.

(** Five callbacks that finish out of order, all services working. *)
Definition workingRuntime : Runtime :=
  {| world := fun _ => workingServices;
     randomUUID := sampleUUID;
     completion := [2; 0; 4; 1; 3] |}.

(** The same, except that OpenAI answers the callback of index 3 with
    status 200 and a body that is no JSON. *)
Definition brokenRuntime : Runtime :=
  {| world := fun index => if decide (index = 3) then brokenOpenAi else workingServices;
     randomUUID := sampleUUID;
     completion := [2; 0; 4; 1; 3] |}.

(** A Supabase project whose upload and insert answer as told; [atob]
    accepts everything. *)
Definition sampleBackend (uploadAnswer insertAnswer : option string) : Backend :=
  {| createClient_throws := fun _ _ => None;
     atob := fun encoded => Some encoded;
     storage_upload := fun _ _ _ => uploadAnswer;
     storage_getPublicUrl := fun client filePath =>
       client_url client +:+ "/storage/v1/object/public/memes/" +:+ filePath;
     table_insert := fun _ _ => insertAnswer;
     table_select := fun _ _ => SelectData [] |}.

(** A project behind a supabase-js that takes http and https addresses
    only. *)
Definition INVALID_SUPABASE_URL : exn :=
  Error "Invalid supabaseUrl: Must be a valid HTTP or HTTPS URL.".

Definition strictBackend : Backend :=
  {| createClient_throws := fun url _ =>
       if Js.startsWith (Js.toLowerCase url) "http://" ||
          Js.startsWith (Js.toLowerCase url) "https://"
       then None else Some INVALID_SUPABASE_URL;
     atob := fun encoded => Some encoded;
     storage_upload := fun _ _ _ => None;
     storage_getPublicUrl := fun client filePath =>
       client_url client +:+ "/storage/v1/object/public/memes/" +:+ filePath;
     table_insert := fun _ _ => None;
     table_select := fun _ _ => SelectData [] |}.

Definition sampleMeme (id : string) (status : Status) : GeneratedMeme.t :=
  GeneratedMeme.mk "top" "bottom" "prompt" id "data:image/png;base64,iVBORw0KGgo"
    "alt" status dalle.

(** A connected session that shows two memes. *)
Definition sampleSession : Session.t :=
  Session.mk "" "" "" [sampleMeme "id-1" pending; sampleMeme "id-2" rejected]
    false None false "sk-1" "https://kmfny.supabase.co" "anon-key" true.

(** [{ ...meme, status }] on the meme with this id, as [handleStatusChange]
    maps it over the list. *)
Definition setStatus (id : string) (status : Status) (meme : GeneratedMeme.t)
  : GeneratedMeme.t :=
  if decide (GeneratedMeme.id meme = id)
  then GeneratedMeme.with_status status meme else meme.

(** ** The rest of [services/feedbackService.ts] *)

(** The three module variables [supabase], [currentSupabaseUrl] and
    [currentSupabaseKey] that [getSupabaseClient] keeps between calls. *)
Record ClientModule : Type := {
  supabase : option SupabaseClient;
  currentSupabaseUrl : option string;
  currentSupabaseKey : option string;
}.

Definition freshModule : ClientModule :=
  {| supabase := None; currentSupabaseUrl := None; currentSupabaseKey := None |}.

(** [getSupabaseClient] with its module variables: what the call returns or
    throws, the variables after the call, and whether [createClient] was
    called.  A [createClient] that throws leaves the three variables as
    they were. *)
Definition getSupabaseClientMemo
    (throws : string -> string -> option exn) (m : ClientModule) (url key : string)
  : Res SupabaseClient * ClientModule * bool :=
  if Js.falsy url || Js.falsy key
  then (Throw (Error "Supabase URL and Anon Key are required."), m, false)
  else
    let renewed :=
      match createClient throws url key with
      | Throw e => (Throw e, m, true)
      | Ret client =>
          (Ret client,
           {| supabase := Some client;
              currentSupabaseUrl := Some url;
              currentSupabaseKey := Some key |}, true)
      end in
    match supabase m with
    | Some client =>
        if bool_decide (currentSupabaseUrl m = Some url) &&
           bool_decide (currentSupabaseKey m = Some key)
        then (Ret client, m, false)
        else renewed
    | None => renewed
    end.

(** A sequence of calls of [getSupabaseClient], each with its url and key. *)
Fixpoint clientCalls
    (throws : string -> string -> option exn) (m : ClientModule)
    (requests : list (string * string))
  : list (Res SupabaseClient * bool) :=
  match requests with
  | [] => []
  | (url, key) :: rest =>
      let '(r, m', created) := getSupabaseClientMemo throws m url key in
      (r, created) :: clientCalls throws m' rest
  end.

(** What the two probes of [verifySupabaseConnection] find. *)
Inductive TableProbe : Type :=
  | TableProbeRejects (e : exn)
  | TableProbeError (message : string)
  | TableProbeOk.

(** [(bucketError as any).status] and [bucketError.message]. *)
Record BucketError : Type := {
  bucket_status : option nat;
  bucket_message : option string;
}.

Inductive BucketProbe : Type :=
  | BucketProbeRejects (e : exn)
  | BucketProbeError (bucketError : BucketError)
  | BucketProbeData (public : bool).

(** supabase-js and the project, as the connection test meets them. *)
Record Project : Type := {
  probe_createClient_throws : string -> string -> option exn;
  probe_table : SupabaseClient -> TableProbe;
  probe_bucket : SupabaseClient -> BucketProbe;
}.

Module ConnectionResult.
Record t : Type := mk { success : bool; message : string }.
End ConnectionResult.

Definition quote : string := String Js.dquote EmptyString.

Definition TABLE_NOT_FOUND : string :=
  "Connection failed: The 'approved_memes' table was not found. Please run the setup SQL in your Supabase project.".
Definition AUTHENTICATION_ERROR : string :=
  "Authentication error: Your Supabase URL or Anon Key is incorrect. Please double-check them.".
Definition BUCKET_NOT_FOUND : string :=
  "Connection failed: The 'memes' storage bucket was not found. Please create a public bucket with this exact name.".
Definition BUCKET_NOT_PUBLIC : string :=
  "Connection failed: The 'memes' storage bucket is not public. Please edit the bucket policies to make it public.".
Definition CONNECTION_OK : string :=
  "Supabase connection successful! You can now generate memes.".

(** The [throw] chosen from the message of [tableError]. *)
Definition tableFailure (message : string) : exn :=
  let tableErrorMessage := Js.toLowerCase message in
  if Js.includes tableErrorMessage
       ("relation " +:+ quote +:+ "approved_memes" +:+ quote +:+ " does not exist") ||
     Js.includes tableErrorMessage "could not find the table 'public.approved_memes'"
  then Error TABLE_NOT_FOUND
  else if Js.includes tableErrorMessage "jwt"
  then Error AUTHENTICATION_ERROR
  else Error ("Database error: " +:+ message).

(** The [throw] chosen from [bucketError]. *)
Definition bucketFailure (bucketError : BucketError) : exn :=
  if bool_decide (bucket_status bucketError = Some 404) ||
     match bucket_message bucketError with
     | Some message => Js.includes (Js.toLowerCase message) "not found"
     | None => false
     end
  then Error BUCKET_NOT_FOUND
  else Error ("Storage error: " +:+ default "undefined" (bucket_message bucketError)).

Definition verifySupabaseConnection
    (pr : Project) (supabaseUrl supabaseAnonKey : string) : Res ConnectionResult.t :=
  try_catch
    (client ← getSupabaseClient (probe_createClient_throws pr) supabaseUrl supabaseAnonKey;
     _ ← match probe_table pr client with
         | TableProbeRejects e => Throw e
         | TableProbeError message => Throw (tableFailure message)
         | TableProbeOk => Ret ()
         end;
     match probe_bucket pr client with
     | BucketProbeRejects e => Throw e
     | BucketProbeError bucketError => Throw (bucketFailure bucketError)
     | BucketProbeData false => Throw (Error BUCKET_NOT_PUBLIC)
     | BucketProbeData true => Ret (ConnectionResult.mk true CONNECTION_OK)
     end)
    (fun error =>
       match error with
       | Error message => Ret (ConnectionResult.mk false message)
       | NonError =>
           Ret (ConnectionResult.mk false
                  "An unknown error occurred during the connection test.")
       end).

(** ** The rest of [services/geminiService.ts] *)

Definition newline : string := String "010"%char EmptyString.

Definition SYSTEM_INSTRUCTION : string :=
  "You are an AI meme generator for a queer nightlife project called 'Kiss My Face New York'. Your humor is witty, subversive, and deeply embedded in queer culture, referencing everything from drag race to historical queer icons and modern internet slang. You create memes in the style of popular, edgy, and funny queer-focused Instagram accounts. Your tone is irreverent, celebratory, and sharp. Generate exactly 5 concepts. IMPORTANT: Keep the total text for each meme (top text + bottom text) concise and impactful, under 15 words total.".

(** The line [createSystemInstruction] writes for one example. *)
Definition exampleLine (ex : MemeConcept.t) : string :=
  "- Top: " +:+ quote +:+ MemeConcept.topText ex +:+ quote +:+
  ", Bottom: " +:+ quote +:+ MemeConcept.bottomText ex +:+ quote +:+
  ", Image Idea: " +:+ quote +:+ MemeConcept.imagePrompt ex +:+ quote.

Definition createSystemInstruction (examples : list MemeConcept.t) : string :=
  match examples with
  | [] => SYSTEM_INSTRUCTION
  | _ =>
      let examplesString := String.concat newline (List.map exampleLine examples) in
      SYSTEM_INSTRUCTION +:+ newline +:+ newline +:+
      "To fine-tune your response, here are examples of previously admin-approved memes. Match this style and humor:" +:+
      newline +:+ examplesString
  end.

(** What [sendApprovalEmail] writes out for one meme, and the whole mail. *)
Record EmailItem : Type := {
  item_id : string;
  item_topText : string;
  item_bottomText : string;
  item_imageUrl : string;
  item_status : Status;
}.

Record Email : Type := {
  recipient : string;
  subject : string;
  emailContent : list EmailItem;
}.

(** The mail is only written to the console; it always resolves to
    [{ success: true }]. *)
Definition sendApprovalEmail (memes : list GeneratedMeme.t) (recipient subject : string)
  : Email * Res bool :=
  ({| recipient := recipient;
      subject := subject;
      emailContent :=
        List.map (fun meme =>
          {| item_id := GeneratedMeme.id meme;
             item_topText := GeneratedMeme.topText meme;
             item_bottomText := GeneratedMeme.bottomText meme;
             item_imageUrl := GeneratedMeme.imageUrl meme;
             item_status := GeneratedMeme.status meme |}) memes |},
   Ret true).

(** ** The rest of [App.tsx] and [components/ApiKeyManager.tsx] *)

(** The state of [App] beside the session: the autopilot form, the two
    in-flight flags and the login. *)
Module App.
Record t : Type := mk {
  session : Session.t;
  isAutopilotOn : bool;
  autopilotPrompt : string;
  autopilotLinks : string;
  isSendingEmail : bool;
  isLoggedIn : bool;
  regeneratingMemeId : option string;
}.

Definition setSession (f : Session.t -> Session.t) (a : t) : t :=
  mk (f (session a)) (isAutopilotOn a) (autopilotPrompt a) (autopilotLinks a)
     (isSendingEmail a) (isLoggedIn a) (regeneratingMemeId a).

Definition setIsAutopilotOn (f : bool -> bool) (a : t) : t :=
  mk (session a) (f (isAutopilotOn a)) (autopilotPrompt a) (autopilotLinks a)
     (isSendingEmail a) (isLoggedIn a) (regeneratingMemeId a).

Definition setIsSendingEmail (b : bool) (a : t) : t :=
  mk (session a) (isAutopilotOn a) (autopilotPrompt a) (autopilotLinks a)
     b (isLoggedIn a) (regeneratingMemeId a).

Definition setRegeneratingMemeId (id : option string) (a : t) : t :=
  mk (session a) (isAutopilotOn a) (autopilotPrompt a) (autopilotLinks a)
     (isSendingEmail a) (isLoggedIn a) id.
End App.

Definition handleGenerateFromHeadline
    (be : Backend) (rt : Runtime) (concepts : ConceptService) (s : Session.t) : Session.t :=
  if Js.falsy (Js.trim (Session.headline s)) then s
  else runMemeGeneration be rt concepts headlineGenerator s.

Definition handleGenerateFromInspiration
    (be : Backend) (rt : Runtime) (concepts : ConceptService) (s : Session.t) : Session.t :=
  if Js.falsy (Js.trim (Session.customPrompt s)) ||
     Js.falsy (Js.trim (Session.instagramLinks s))
  then s
  else runMemeGeneration be rt concepts inspirationGenerator s.

Definition handleToggleAutopilot (a : App.t) : App.t :=
  if negb (App.isAutopilotOn a) && negb (Session.isSupabaseConnected (App.session a)) then
    App.setSession
      (Session.setError
         (Some "Please configure and test your Supabase connection before enabling Autopilot.")) a
  else if negb (App.isAutopilotOn a) &&
          (Js.falsy (Js.trim (App.autopilotPrompt a)) ||
           Js.falsy (Js.trim (App.autopilotLinks a))) then
    App.setSession
      (Session.setError
         (Some "Please set a prompt and provide inspiration links before enabling Autopilot.")) a
  else
    App.setIsAutopilotOn negb (App.setSession (Session.setError None) a).

(** [new Date()] as the autopilot reads it: [getHours()] and
    [toISOString()]. *)
Record Clock : Type := { getHours : nat; toISOString : string }.

(** [now.toISOString().split('T')[0]] *)
Definition today (now : Clock) : string :=
  default "undefined" (Js.split "T" (toISOString now) !! 0).

(** [runAutopilotTask]: the value of [lastAutopilotRunDate] in the local
    storage afterwards, and the mails sent. *)
Definition runAutopilotTask
    (be : Backend) (rt : Runtime) (concepts : ConceptService) (now : Clock)
    (a : App.t) (lastRunDate : option string) : option string * list Email :=
  let s := App.session a in
  if (getHours now =? 8)%nat && negb (bool_decide (lastRunDate = Some (today now))) &&
     Session.isSupabaseConnected s
  then
    let sent :=
      try_catch
        (examples ← getApprovedMemes be (Session.supabaseUrl s) (Session.supabaseAnonKey s);
         autopilotMemes ←
           generateMemesFromInspiration be rt concepts (App.autopilotLinks a)
             (App.autopilotPrompt a) examples (Session.openAiApiKey s)
             (Session.supabaseUrl s) (Session.supabaseAnonKey s);
         let successfulMemes :=
           List.filter (fun m => negb (bool_decide (GeneratedMeme.status m = rejected)))
             autopilotMemes in
         if (0 <? length successfulMemes)%nat then
           let '(mail, result) :=
             sendApprovalEmail successfulMemes "admin@kissmyfacenewyork.com"
               ("KMFNY Autopilot Memes: " +:+ today now) in
           _ ← result; Ret [mail]
         else Ret [])
        (fun _ => Ret []) in
    (Some (today now), match sent with Ret mails => mails | Throw _ => [] end)
  else (lastRunDate, []).

(** One firing of the autopilot effect: at mount and at each interval the
    task runs, provided the autopilot is on. *)
Record Tick : Type := {
  tick_backend : Backend;
  tick_runtime : Runtime;
  tick_concepts : ConceptService;
  tick_now : Clock;
  tick_app : App.t;
}.

Definition autopilotTick (t : Tick) (lastRunDate : option string)
  : option string * list Email :=
  if App.isAutopilotOn (tick_app t)
  then runAutopilotTask (tick_backend t) (tick_runtime t) (tick_concepts t)
         (tick_now t) (tick_app t) lastRunDate
  else (lastRunDate, []).

Fixpoint autopilotTicks (ticks : list Tick) (lastRunDate : option string)
  : option string * list Email :=
  match ticks with
  | [] => (lastRunDate, [])
  | t :: rest =>
      let '(stored, mails) := autopilotTick t lastRunDate in
      let '(stored', mails') := autopilotTicks rest stored in
      (stored', (mails ++ mails')%list)
  end.

(** [if (regeneratingMemeId)]: [null] and the empty string are falsy. *)
Definition inFlight (regeneratingMemeId : option string) : bool :=
  match regeneratingMemeId with
  | Some id => negb (Js.falsy id)
  | None => false
  end.

(** The update of the meme that [handleRegenerate] maps over the list. *)
Definition regenerated (id newImageUrl newAltText : string) (newModelUsed : Model)
    (meme : GeneratedMeme.t) : GeneratedMeme.t :=
  if decide (GeneratedMeme.id meme = id)
  then GeneratedMeme.mk (GeneratedMeme.topText meme) (GeneratedMeme.bottomText meme)
         (GeneratedMeme.imagePrompt meme) (GeneratedMeme.id meme)
         newImageUrl newAltText pending newModelUsed
  else meme.

Definition handleRegenerate (w : CallEnv) (id : string) (a : App.t) : App.t :=
  if inFlight (App.regeneratingMemeId a) then a
  else
    let s := App.session a in
    match List.find (fun m => bool_decide (GeneratedMeme.id m = id)) (Session.memes s) with
    | None => a
    | Some memeToRegenerate =>
        let a1 := App.setSession (Session.setError None)
                    (App.setRegeneratingMemeId (Some id) a) in
        let outcome :=
          r ← generateMemeImageWithFallback w
                 (GeneratedMeme.imagePrompt memeToRegenerate)
                 (GeneratedMeme.modelUsed memeToRegenerate) (Session.openAiApiKey s);
          newAltText ← generateImageAltText w (GeneratedMeme.concept memeToRegenerate);
          Ret (r, newAltText) in
        App.setRegeneratingMemeId None
          match outcome with
          | Ret (r, newAltText) =>
              App.setSession
                (Session.setMemes
                   (List.map (regenerated id (ImageResult.imageUrl r) newAltText
                                (ImageResult.modelUsed r)))) a1
          | Throw err =>
              App.setSession (Session.setError (Some (getFriendlyErrorMessage err))) a1
          end
    end.

(** [handleSendEmail] with the mails sent. *)
Definition handleSendEmail (a : App.t) : App.t * list Email :=
  if App.isSendingEmail a ||
     bool_decide (length (Session.memes (App.session a)) = 0) then (a, [])
  else
    let a1 := App.setSession (Session.setError None) (App.setIsSendingEmail true a) in
    let '(mail, result) :=
      sendApprovalEmail (Session.memes (App.session a))
        "admin@kissmyfacenewyork.com" "New Memes for Approval" in
    (App.setIsSendingEmail false
       match result with
       | Ret _ => App.setSession (Session.setEmailSent true) a1
       | Throw _ =>
           App.setSession
             (Session.setError
                (Some "Could not send the approval email. Please try again.")) a1
       end, [mail]).

(** [displayedMemes] *)
Definition displayedMemes (a : App.t) : list GeneratedMeme.t :=
  if App.isLoggedIn a then Session.memes (App.session a)
  else List.filter (fun meme => bool_decide (GeneratedMeme.status meme = approved))
         (Session.memes (App.session a)).

(** The memes the page builds a [MemeCard] for:
    [!isLoading && memes.length > 0 && ... memes.map(...)]. *)
Definition memeCards (a : App.t) : list GeneratedMeme.t :=
  if negb (Session.isLoading (App.session a)) &&
     (0 <? length (Session.memes (App.session a)))%nat
  then Session.memes (App.session a) else [].

(** Whether the page shows "Nothing to see here... yet!":
    [!isLoading && displayedMemes.length === 0 && !isLoggedIn]. *)
Definition nothingToSeeShown (a : App.t) : bool :=
  negb (Session.isLoading (App.session a)) &&
  (length (displayedMemes a) =? 0)%nat &&
  negb (App.isLoggedIn a).

(** The state [ApiKeyManager] keeps itself. *)
Inductive ConnectionStatus : Type := idleStatus | successStatus | errorStatus.

Module Manager.
Record t : Type := mk {
  isTesting : bool;
  connectionStatus : ConnectionStatus;
  connectionMessage : string;
}.
End Manager.

Definition setSupabaseUrl (url : string) (s : Session.t) : Session.t :=
  Session.mk (Session.headline s) (Session.customPrompt s) (Session.instagramLinks s)
    (Session.memes s) (Session.isLoading s) (Session.error s) (Session.emailSent s)
    (Session.openAiApiKey s) url (Session.supabaseAnonKey s)
    (Session.isSupabaseConnected s).

Definition setSupabaseAnonKey (key : string) (s : Session.t) : Session.t :=
  Session.mk (Session.headline s) (Session.customPrompt s) (Session.instagramLinks s)
    (Session.memes s) (Session.isLoading s) (Session.error s) (Session.emailSent s)
    (Session.openAiApiKey s) (Session.supabaseUrl s) key
    (Session.isSupabaseConnected s).

Definition setIsSupabaseConnected (connected : bool) (s : Session.t) : Session.t :=
  Session.mk (Session.headline s) (Session.customPrompt s) (Session.instagramLinks s)
    (Session.memes s) (Session.isLoading s) (Session.error s) (Session.emailSent s)
    (Session.openAiApiKey s) (Session.supabaseUrl s) (Session.supabaseAnonKey s)
    connected.

Definition handleCredentialsChange (st : Session.t * Manager.t) : Session.t * Manager.t :=
  (setIsSupabaseConnected false st.1,
   Manager.mk (Manager.isTesting st.2) idleStatus "").

Definition handleUrlChange (value : string) (st : Session.t * Manager.t)
  : Session.t * Manager.t :=
  handleCredentialsChange (setSupabaseUrl value st.1, st.2).

Definition handleKeyChange (value : string) (st : Session.t * Manager.t)
  : Session.t * Manager.t :=
  handleCredentialsChange (setSupabaseAnonKey value st.1, st.2).

Definition handleTestConnection (pr : Project) (st : Session.t * Manager.t)
  : Session.t * Manager.t :=
  let '(s, _) := st in
  if Js.falsy (Session.supabaseUrl s) || Js.falsy (Session.supabaseAnonKey s) then
    (s, Manager.mk (Manager.isTesting st.2) errorStatus
          "Please enter both Supabase URL and Key.")
  else
    match verifySupabaseConnection pr (Session.supabaseUrl s) (Session.supabaseAnonKey s) with
    | Ret result =>
        if ConnectionResult.success result
        then (setIsSupabaseConnected true s,
              Manager.mk false successStatus (ConnectionResult.message result))
        else (setIsSupabaseConnected false s,
              Manager.mk false errorStatus (ConnectionResult.message result))
    | Throw _ => (s, Manager.mk true idleStatus (Manager.connectionMessage st.2))
    end.

(** What the operator does in the credentials form. *)
Inductive ManagerAction : Type :=
  | EditUrl (value : string)
  | EditKey (value : string)
  | TestConnection (pr : Project).

Definition managerStep (st : Session.t * Manager.t) (action : ManagerAction)
  : Session.t * Manager.t :=
  match action with
  | EditUrl value => handleUrlChange value st
  | EditKey value => handleKeyChange value st
  | TestConnection pr => handleTestConnection pr st
  end.

(** ** Notions used to state the further properties *)

(** Everything of a meme but its status. *)
Definition content (meme : GeneratedMeme.t)
  : string * string * string * string * string * string * Model :=
  (GeneratedMeme.id meme, GeneratedMeme.topText meme, GeneratedMeme.bottomText meme,
   GeneratedMeme.imagePrompt meme, GeneratedMeme.imageUrl meme,
   GeneratedMeme.altText meme, GeneratedMeme.modelUsed meme).

(** A string made of white space only. *)
Fixpoint allSpaces (s : string) : bool :=
  match s with
  | EmptyString => true
  | String c s' => Js.isSpace c && allSpaces s'
  end.

(** A string without the character [c]. *)
Fixpoint without (c : ascii) (s : string) : bool :=
  match s with
  | EmptyString => true
  | String d s' => negb (Ascii.eqb d c) && without c s'
  end.

(** The message [getFriendlyErrorMessage] falls back to. *)
Definition AI_SERVICE_FAILED : string :=
  "An AI service failed. This could be due to a temporary outage or a rejected prompt. Please adjust your input or try again later.".

(** The concept a stored row is read back as. *)
Definition conceptOfRow (item : SelectedRow) : ApprovedMemeConcept.t :=
  ApprovedMemeConcept.mk (sel_top_text item) (sel_bottom_text item)
    (sel_image_prompt item) (sel_model_used item).

(** The file extension and the row [addApprovedMeme] derives from a meme. *)
Definition extensionOf (imageUrl : string) : string :=
  if Js.startsWith imageUrl "data:image/png" then "png" else "jpeg".

Definition rowOf (newMeme : GeneratedMeme.t) (publicImageUrl : string) : InsertedRow :=
  {| row_id := GeneratedMeme.id newMeme;
     top_text := GeneratedMeme.topText newMeme;
     bottom_text := GeneratedMeme.bottomText newMeme;
     image_prompt := GeneratedMeme.imagePrompt newMeme;
     model_used := GeneratedMeme.modelUsed newMeme;
     image_url := publicImageUrl |}.

(** A logged-in operator with a connected project, the given OpenAI key and
    the given memes. *)
Definition sampleApp (openAiApiKey : string) (memes : list GeneratedMeme.t) : App.t :=
  App.mk
    (Session.mk "" "" "" memes false None false openAiApiKey
       "https://kmfny.supabase.co" "anon-key" true)
    false "" "" false true None.

(** The autopilot at work on the first of March at eight: the operator
    above with the autopilot on, a text model that answers with the five
    sample concepts, and the mails of that run. *)
Definition sampleConceptService : ConceptService :=
  fun _ _ => Ret (Some fiveConcepts).

Definition sampleMorning : Clock :=
  {| getHours := 8; toISOString := "2026-03-01T13:00:00.000Z" |}.

Definition sampleTick (now : Clock) : Tick :=
  {| tick_backend := sampleBackend None None;
     tick_runtime := workingRuntime;
     tick_concepts := sampleConceptService;
     tick_now := now;
     tick_app := App.setIsAutopilotOn (fun _ => true) (sampleApp "sk-1" []) |}.

Definition sampleAutopilotMails : list Email :=
  Eval vm_compute in
    (runAutopilotTask (sampleBackend None None) workingRuntime sampleConceptService
       sampleMorning (sampleApp "sk-1" []) None).2.

(** A project with its table and a public bucket, and an operator who types
    the url and the key and tests the connection. *)
Definition publicProject : Project :=
  {| probe_createClient_throws := fun _ _ => None;
     probe_table := fun _ => TableProbeOk;
     probe_bucket := fun _ => BucketProbeData true |}.

Definition blankForm : Session.t * Manager.t :=
  (Session.mk "" "" "" [] false None false "" "" "" false,
   Manager.mk false idleStatus "").

Definition typeAndTest : list ManagerAction :=
  [EditUrl "https://kmfny.supabase.co"; EditKey "anon-key"; TestConnection publicProject].

(** The module variables agree with each other once a client is kept: it
    is the client [createClient] returned for the url and key kept. *)
Definition moduleConsistent
    (throws : string -> string -> option exn) (m : ClientModule) : Prop :=
  match supabase m with
  | Some client =>
      exists url key,
        currentSupabaseUrl m = Some url /\
        currentSupabaseKey m = Some key /\
        createClient throws url key = Ret client
  | None => True
  end.

(** * Properties *)

(** ** Strings *)

Section JsStrings.
Import Js.

Lemma startsWith_toLowerCase s p :
  startsWith s p = true -> startsWith (toLowerCase s) (toLowerCase p) = true.
Proof.
  revert s. induction p as [|c p IH]; intros [|d s]; simpl; try done.
  destruct (Ascii.eqb c d) eqn:E; [|done].
  apply Ascii.eqb_eq in E as ->. rewrite Ascii.eqb_refl. apply IH.
Qed.

Lemma includes_unfold s p :
  includes s p =
  startsWith s p || match s with EmptyString => false | String _ s' => includes s' p end.
Proof. by destruct s. Qed.

Lemma includes_toLowerCase s p :
  includes s p = true -> includes (toLowerCase s) (toLowerCase p) = true.
Proof.
  induction s as [|d s IH].
  - rewrite (includes_unfold EmptyString), (includes_unfold (toLowerCase EmptyString)).
    intros H. apply orb_true_iff in H as [H|H]; [|done].
    by rewrite (startsWith_toLowerCase _ _ H).
  - rewrite (includes_unfold (String d s)), (includes_unfold (toLowerCase (String d s))).
    intros H. apply orb_true_iff in H as [H|H].
    + by rewrite (startsWith_toLowerCase _ _ H).
    + cbn [toLowerCase]. rewrite (IH H). apply orb_true_r.
Qed.
End JsStrings.

(** ** The image and text paths *)

(** The Gemini image path settles to a value whatever the service does. *)
Lemma generateImage_returns w prompt : returns (generateImage w prompt).
Proof.
  unfold generateImage, returns.
  destruct (gemini_image w _) as [e|parts]; simpl; [by eexists|].
  destruct (_ ≫= inlineData); by eexists.
Qed.

(** On a rejected call and on a response without an image part it settles
    to the placeholder. *)
Lemma generateImage_failure w prompt :
  (forall e, gemini_image w
     ("In a vibrant, high contrast, pop art meme aesthetic: " +:+ prompt +:+
      ". IMPORTANT: The generated image must not contain any text, letters, words, or numbers. It should be purely visual.")
     = ImageRejects e -> generateImage w prompt = Ret GEMINI_PLACEHOLDER_IMAGE_URL) /\
  (forall parts, gemini_image w
     ("In a vibrant, high contrast, pop art meme aesthetic: " +:+ prompt +:+
      ". IMPORTANT: The generated image must not contain any text, letters, words, or numbers. It should be purely visual.")
     = ImageResolves parts ->
     parts ≫= List.find hasInlineData = None ->
     generateImage w prompt = Ret GEMINI_PLACEHOLDER_IMAGE_URL).
Proof.
  unfold generateImage. split.
  - by intros e ->.
  - intros parts -> Hnone. simpl. by rewrite Hnone.
Qed.

(** The alt-text path settles to a value whatever the service does. *)
Lemma generateImageAltText_returns w concept : returns (generateImageAltText w concept).
Proof.
  unfold generateImageAltText, returns.
  destruct (gemini_text w concept) as [e|[text|]]; simpl; by eexists.
Qed.

(** Unless the service answers with a text, the result is the fallback
    string. *)
Lemma generateImageAltText_failure w concept :
  (forall text, gemini_text w concept <> TextResolves (Some text)) ->
  generateImageAltText w concept = Ret (altTextFallback concept).
Proof.
  unfold generateImageAltText. intros H.
  destruct (gemini_text w concept) as [e|[text|]]; simpl; try done.
  by destruct (H text).
Qed.

(** The three ways the OpenAI path degrades to its placeholder. *)
Lemma generateImageWithDalle_degrades w prompt apiKey :
  match openai_fetch w
          (prompt +:+ ". IMPORTANT: The generated image must not contain any text, letters, words, or numbers. It should be purely visual.")
          apiKey with
  | NetworkError _ | HttpResponse false _
  | HttpResponse true (JsonValue None) | HttpResponse true (JsonValue (Some EmptyString)) =>
      generateImageWithDalle w prompt apiKey = Ret DALLE_PLACEHOLDER_IMAGE_URL
  | _ => True
  end.
Proof.
  unfold generateImageWithDalle.
  destruct (Js.falsy apiKey);
    destruct (openai_fetch w _ apiKey) as [e|[] [e| |[[|]|]]]; done.
Qed.

(** The two ways the OpenAI path rejects: the body of a response with
    status 200 is no JSON, or it is the JSON value [null]. *)
Lemma generateImageWithDalle_Throw w prompt apiKey e :
  generateImageWithDalle w prompt apiKey = Throw e <->
  apiKey <> "" /\
  (openai_fetch w
     (prompt +:+ ". IMPORTANT: The generated image must not contain any text, letters, words, or numbers. It should be purely visual.")
     apiKey = HttpResponse true (NotJson e) \/
   (openai_fetch w
      (prompt +:+ ". IMPORTANT: The generated image must not contain any text, letters, words, or numbers. It should be purely visual.")
      apiKey = HttpResponse true JsonNull /\ e = TypeError)).
Proof.
  unfold generateImageWithDalle. destruct apiKey as [|c apiKey]; simpl.
  { split; [done|]. by intros [? _]. }
  destruct (openai_fetch w _ _) as [e'|[] [e'| |[[|]|]]]; simpl;
    split; try done; try (intros [_ [?|[? _]]]; done).
  - intros [= <-]. split; [done|]. by left.
  - intros [_ [[= <-]|[? _]]]; done.
  - intros [= <-]. split; [done|]. by right.
  - intros [_ [?|[_ ->]]]; done.
Qed.

(** ** The estimator *)

Lemma countOf_total history :
  length history = countOf gemini history + countOf dalle history.
Proof.
  unfold countOf. induction history as [|m history IH]; [done|].
  rewrite !filter_cons. destruct m as [? ? ? []]; simpl;
    repeat case_decide; simplify_eq; simpl; lia.
Qed.

Lemma getApprovedMemes_returns be url key : returns (getApprovedMemes be url key).
Proof.
  unfold getApprovedMemes, returns.
  destruct (_ || _); [by eexists|].
  destruct (getSupabaseClient _ url key) as [client|e]; simpl; [|by eexists].
  destruct (table_select be client MAX_EXAMPLES); simpl; by eexists.
Qed.

Lemma modelPreferenceOf_cases history :
  modelPreferenceOf history =
  if decide (countOf gemini history < countOf dalle history)
  then Preference.mk 2 3 else Preference.mk 3 2.
Proof.
  unfold modelPreferenceOf. pose proof (countOf_total history) as Htot.
  fold (countOf dalle history).
  destruct (decide (length history = 0)) as [Hz|Hnz].
  - case_decide; [lia|done].
  - repeat case_decide; try done; lia.
Qed.

(** C5 — The estimator answers (gemini 3, dalle 2) on an empty history; on
    any history it answers (gemini 2, dalle 3) exactly when the entries made
    by dalle strictly outnumber those made by gemini, and (gemini 3, dalle 2)
    otherwise, ties included.  [getModelPreference] answers with the estimate
    of the history [getApprovedMemes] resolved to. *)
Theorem modelPreference_majority :
  modelPreferenceOf [] = Preference.mk 3 2 /\
  (forall history,
     (modelPreferenceOf history = Preference.mk 2 3 <->
      countOf gemini history < countOf dalle history) /\
     (modelPreferenceOf history = Preference.mk 3 2 <->
      countOf dalle history <= countOf gemini history)) /\
  (forall be url key, exists history,
     getApprovedMemes be url key = Ret history /\
     getModelPreference be url key = Ret (modelPreferenceOf history)).
Proof.
  split; [done|]. split.
  - intros history. rewrite modelPreferenceOf_cases.
    case_decide; split; split; intros; try done; try lia.
  - intros be url key. destruct (getApprovedMemes_returns be url key) as [h Hh].
    exists h. split; [done|]. unfold getModelPreference. by rewrite Hh.
Qed.

(** ** The provider schedule *)

Lemma generatorSchedule_lookup p index :
  generatorSchedule p !! index =
  if decide (index < Preference.gemini p) then Some gemini
  else if decide (index < Preference.gemini p + Preference.dalle p) then Some dalle
  else None.
Proof.
  unfold generatorSchedule. case_decide as Hg.
  - rewrite lookup_app_l by (by rewrite length_replicate).
    by apply lookup_replicate_2.
  - rewrite lookup_app_r by (rewrite length_replicate; lia).
    rewrite length_replicate. case_decide as Hd.
    + apply lookup_replicate_2. lia.
    + apply lookup_ge_None. rewrite length_replicate. lia.
Qed.

Lemma scheduledModel_cases p index :
  scheduledModel p index =
  if decide (Preference.gemini p <= index < Preference.gemini p + Preference.dalle p)
  then dalle else gemini.
Proof.
  unfold scheduledModel. rewrite generatorSchedule_lookup.
  repeat case_decide; try done; lia.
Qed.

(** C10 — Whatever the history, the two counts of the estimate add up to 5,
    the schedule built from them has 5 entries, and every index below 5 finds
    an entry there: in a batch of at most five concepts the default of
    [generatorSchedule[index] || 'gemini'] is never taken. *)
Theorem estimate_fills_batch_of_five :
  forall history,
    let p := modelPreferenceOf history in
    Preference.gemini p + Preference.dalle p = 5 /\
    length (generatorSchedule p) = 5 /\
    (forall index, index < 5 ->
       exists model, generatorSchedule p !! index = Some model /\
                     scheduledModel p index = model) /\
    (forall index, generatorSchedule p !! index = None <-> 5 <= index).
Proof.
  intros history p. subst p. rewrite modelPreferenceOf_cases.
  case_decide; (split; [done|]; split; [done|]; split).
  all: try (intros index Hi; unfold scheduledModel;
            destruct index as [|[|[|[|[|?]]]]]; [by eexists..|lia]).
  all: intros index; rewrite lookup_ge_None; done.
Qed.

(** ** The OpenAI path without a credential *)

(** C6 (as the code has it) — Called with an empty API key, the OpenAI image
    path raises nothing: it settles to its placeholder image, whatever the
    prompt and whatever the services would have answered. *)
Theorem generateImageWithDalle_without_key :
  forall w prompt,
    generateImageWithDalle w prompt "" = Ret DALLE_PLACEHOLDER_IMAGE_URL.
Proof. done. Qed.

(** With no key the call does not raise, against the claim C6 as written. *)
Lemma generateImageWithDalle_without_key_does_not_raise :
  ~ raises (generateImageWithDalle workingServices "a disco ball at dawn" "").
Proof. intros [e He]. discriminate He. Qed.

(** ** The fallback wrapper *)

Lemma fallback_unfold w prompt model key :
  generateMemeImageWithFallback w prompt model key =
  match model, key with
  | dalle, EmptyString =>
      imageUrl ← generateImage w prompt; Ret (ImageResult.mk imageUrl gemini)
  | dalle, _ =>
      imageUrl ← generateImageWithDalle w prompt key; Ret (ImageResult.mk imageUrl dalle)
  | gemini, _ =>
      imageUrl ← generateImage w prompt; Ret (ImageResult.mk imageUrl gemini)
  end.
Proof. by destruct model, key. Qed.

(** C7 — Asked for dalle with an empty key, the wrapper runs the Gemini path
    and answers [modelUsed = gemini]; it raises nothing there.  In every
    other case the model it reports is the one requested: with gemini it
    always answers, with dalle and a key it answers as soon as the OpenAI
    path does, placeholder or not, and a rejection can only be that of the
    OpenAI path. *)
Theorem fallback_reports_provider :
  forall w prompt,
    (exists imageUrl,
        generateImage w prompt = Ret imageUrl /\
        generateMemeImageWithFallback w prompt dalle "" =
          Ret (ImageResult.mk imageUrl gemini)) /\
    (forall key, exists imageUrl,
        generateImage w prompt = Ret imageUrl /\
        generateMemeImageWithFallback w prompt gemini key =
          Ret (ImageResult.mk imageUrl gemini)) /\
    (forall key imageUrl, key <> "" ->
        generateImageWithDalle w prompt key = Ret imageUrl ->
        generateMemeImageWithFallback w prompt dalle key =
          Ret (ImageResult.mk imageUrl dalle)) /\
    (forall model key r, ~ (model = dalle /\ key = "") ->
        generateMemeImageWithFallback w prompt model key = Ret r ->
        ImageResult.modelUsed r = model) /\
    (forall model key e,
        generateMemeImageWithFallback w prompt model key = Throw e ->
        model = dalle /\ key <> "" /\ generateImageWithDalle w prompt key = Throw e).
Proof.
  intros w prompt.
  destruct (generateImage_returns w prompt) as [img Himg].
  repeat split.
  - exists img. by rewrite fallback_unfold, Himg.
  - intros key. exists img. split; [done|]. rewrite fallback_unfold, Himg. by destruct key.
  - intros key imageUrl Hkey Hd. rewrite fallback_unfold. destruct key; [done|]. by rewrite Hd.
  - intros model key r Hno. rewrite fallback_unfold.
    destruct model, key as [|c key]; rewrite ?Himg; simpl.
    all: try (intros [= <-]; done).
    + destruct Hno; done.
    + destruct (generateImageWithDalle w prompt (String c key)); simpl; [|done].
      by intros [= <-].
  - revert H. rewrite fallback_unfold. destruct model, key; rewrite ?Himg; done.
  - revert H. rewrite fallback_unfold. destruct model, key; rewrite ?Himg; done.
  - revert H. rewrite fallback_unfold.
    destruct model, key as [|c key]; rewrite ?Himg; try done.
    destruct (generateImageWithDalle w prompt (String c key)); simpl; congruence.
Qed.

(** The wrapper at work on a request for dalle with a key: the OpenAI path
    answers, and the model reported is dalle. *)
Lemma fallback_reports_provider_runs :
  generateMemeImageWithFallback workingServices "a cat" dalle "sk-1" =
    Ret (ImageResult.mk "data:image/png;base64,iVBORw0KGgo" dalle) /\
  ImageResult.modelUsed (ImageResult.mk "data:image/png;base64,iVBORw0KGgo" dalle) = dalle.
Proof.
  split; [reflexivity|].
  apply (proj1 (proj2 (proj2 (proj2 (fallback_reports_provider workingServices "a cat"))))
           dalle "sk-1").
  - intros [_ Hkey]. discriminate Hkey.
  - reflexivity.
Defined.

(** ** Batch assembly *)

Section PromiseAll.
Context {A : Type}.
Implicit Types (ps : list (Res A)) (order : list nat).

Lemma allFulfilled_Ret ps vs :
  allFulfilled ps = Ret vs <-> Forall2 (fun p v => p = Ret v) ps vs.
Proof.
  revert vs. induction ps as [|[a|e] ps IH]; intros vs; simpl.
  - split; [intros [= <-]; constructor | by inversion 1].
  - destruct (allFulfilled ps) as [rest|e] eqn:Hrest; simpl.
    + split.
      * intros [= <-]. constructor; [done|]. by apply IH.
      * inversion 1 as [|? v ? vs' Hv Hvs]; simplify_eq.
        apply IH in Hvs. by simplify_eq.
    + split; [done|].
      inversion 1 as [|? v ? vs' Hv Hvs]; simplify_eq.
      apply IH in Hvs. done.
  - split; [done|]. inversion 1; simplify_eq.
Qed.

Lemma firstRejection_Some ps order e :
  firstRejection ps order = Some e -> exists i, i ∈ order /\ ps !! i = Some (Throw e).
Proof.
  induction order as [|i order IH]; simpl; [done|].
  destruct (ps !! i) as [[a|e']|] eqn:Hi.
  - intros H. destruct (IH H) as (j & ? & ?). exists j. split; [by right|done].
  - intros [= <-]. exists i. split; [by left|done].
  - intros H. destruct (IH H) as (j & ? & ?). exists j. split; [by right|done].
Qed.

Lemma firstRejection_None ps order vs :
  Forall2 (fun p v => p = Ret v) ps vs -> firstRejection ps order = None.
Proof.
  intros Hall. induction order as [|i order IH]; simpl; [done|].
  destruct (ps !! i) as [[a|e]|] eqn:Hi; try done.
  destruct (Forall2_lookup_l _ _ _ _ _ Hall Hi) as (v & _ & ?). done.
Qed.

Lemma Promise_all_Ret order ps vs :
  Promise_all order ps = Ret vs <-> Forall2 (fun p v => p = Ret v) ps vs.
Proof.
  unfold Promise_all. split.
  - destruct (firstRejection ps order); [done|]. apply allFulfilled_Ret.
  - intros H. rewrite (firstRejection_None _ _ _ H). by apply allFulfilled_Ret.
Qed.

Lemma allFulfilled_Throw ps e :
  allFulfilled ps = Throw e -> exists i, ps !! i = Some (Throw e).
Proof.
  induction ps as [|[a|e'] ps IH]; simpl; [done| |].
  - destruct (allFulfilled ps) as [rest|e''] eqn:Hrest; simpl; [done|].
    intros [= <-]. destruct (IH eq_refl) as [i Hi]. by exists (S i).
  - intros [= <-]. by exists 0.
Qed.

(** [Promise.all] rejects only with the rejection of one of its promises. *)
Lemma Promise_all_Throw order ps e :
  Promise_all order ps = Throw e -> exists i, ps !! i = Some (Throw e).
Proof.
  unfold Promise_all. destruct (firstRejection ps order) as [e'|] eqn:H.
  - intros [= <-]. destruct (firstRejection_Some _ _ _ H) as (i & _ & ?). by exists i.
  - apply allFulfilled_Throw.
Qed.

(** It fulfils as soon as each of its promises does. *)
Lemma Promise_all_returns order ps :
  Forall returns ps -> returns (Promise_all order ps).
Proof.
  intros Hall.
  assert (exists vs, Forall2 (fun p v => p = Ret v) ps vs) as [vs Hvs].
  { induction Hall as [|p ps [v ->] _ [vs IH]]; [by exists []|].
    exists (v :: vs). by constructor. }
  exists vs. by apply Promise_all_Ret.
Qed.
End PromiseAll.

Lemma position_lt i l : i ∈ l -> position i l < length l.
Proof.
  induction l as [|j l IH]; simpl; [by intros ?%elem_of_nil|].
  intros Hin. case_decide; [lia|].
  apply elem_of_cons in Hin as [?|Hin]; [done|]. specialize (IH Hin). lia.
Qed.

Lemma position_inj i j l : i ∈ l -> position i l = position j l -> i = j.
Proof.
  induction l as [|k l IH]; simpl; [by intros ?%elem_of_nil|].
  intros Hin. repeat case_decide; simplify_eq; try done.
  intros [= Heq]. apply elem_of_cons in Hin as [?|Hin]; [done|]. by apply IH.
Qed.

(** What the callback of [concepts.map] makes when it fulfils. *)
Lemma memePromise_Ret rt p key index concept m :
  memePromise rt p key index concept = Ret m ->
  GeneratedMeme.concept m = concept /\
  GeneratedMeme.status m = pending /\
  GeneratedMeme.id m = randomUUID rt (position index (completion rt)) /\
  exists r,
    generateMemeImageWithFallback (world rt index) (MemeConcept.imagePrompt concept)
      (scheduledModel p index) key = Ret r /\
    GeneratedMeme.imageUrl m = ImageResult.imageUrl r /\
    GeneratedMeme.modelUsed m = ImageResult.modelUsed r.
Proof.
  unfold memePromise.
  destruct (generateMemeImageWithFallback _ _ _ _) as [r|e]; simpl; [|done].
  destruct (generateImageAltText _ _) as [alt|e]; simpl; [|done].
  intros [= <-]. destruct concept. simpl. repeat split. by exists r.
Qed.

(** The callback rejects only with a rejection of the OpenAI path. *)
Lemma memePromise_Throw rt p key index concept e :
  memePromise rt p key index concept = Throw e ->
  scheduledModel p index = dalle /\ key <> "" /\
  generateImageWithDalle (world rt index) (MemeConcept.imagePrompt concept) key = Throw e.
Proof.
  unfold memePromise. rewrite fallback_unfold.
  destruct (generateImage_returns (world rt index) (MemeConcept.imagePrompt concept))
    as [img Himg].
  destruct (generateImageAltText_returns (world rt index) concept) as [alt Halt].
  destruct (scheduledModel p index), key as [|c key]; rewrite ?Himg; simpl;
    rewrite ?Halt; try done.
  destruct (generateImageWithDalle _ _ _) as [img'|e']; simpl; rewrite ?Halt; [done|].
  by intros [= <-].
Qed.

Lemma memePromise_returns rt p key index concept :
  (scheduledModel p index = dalle ->
   returns (generateImageWithDalle (world rt index) (MemeConcept.imagePrompt concept) key)) ->
  returns (memePromise rt p key index concept).
Proof.
  intros Hd. destruct (memePromise rt p key index concept) as [m|e] eqn:H; [by exists m|].
  apply memePromise_Throw in H as (Hs & _ & He).
  destruct (Hd Hs) as [img Himg]. congruence.
Qed.

Lemma processConcepts_unfold rt concepts p key :
  concepts <> [] ->
  processConceptsIntoMemes rt (Ret (Some concepts)) p key =
  Promise_all (completion rt) (imap (memePromise rt p key) concepts).
Proof. by destruct concepts. Qed.

(** Each artifact of a fulfilled batch is what the callback made of the
    concept at the same index. *)
Lemma processConcepts_Ret rt concepts p key memes :
  concepts <> [] ->
  processConceptsIntoMemes rt (Ret (Some concepts)) p key = Ret memes ->
  length memes = length concepts /\
  forall i m, memes !! i = Some m ->
    exists c, concepts !! i = Some c /\ memePromise rt p key i c = Ret m.
Proof.
  intros Hne. rewrite processConcepts_unfold by done.
  intros Hall%Promise_all_Ret.
  pose proof (Forall2_length _ _ _ Hall) as Hlen. rewrite length_imap in Hlen.
  split; [done|]. intros i m Hm.
  destruct (Forall2_lookup_r _ _ _ _ _ Hall Hm) as (pr & Hpr & ->).
  rewrite list_lookup_imap in Hpr.
  destruct (concepts !! i) as [c|]; simpl in Hpr; [|done]. exists c. by simplify_eq.
Qed.

(** A batch over a non-empty list rejects only with a rejection of the
    OpenAI path for a concept scheduled to dalle. *)
Lemma processConcepts_Throw rt concepts p key e :
  concepts <> [] ->
  processConceptsIntoMemes rt (Ret (Some concepts)) p key = Throw e ->
  exists index concept,
    concepts !! index = Some concept /\
    scheduledModel p index = dalle /\ key <> "" /\
    generateImageWithDalle (world rt index) (MemeConcept.imagePrompt concept) key = Throw e.
Proof.
  intros Hne. rewrite processConcepts_unfold by done.
  intros [index Hi]%Promise_all_Throw. rewrite list_lookup_imap in Hi.
  destruct (concepts !! index) as [concept|] eqn:Hc; simpl in Hi; [|done].
  exists index, concept. split; [done|]. apply memePromise_Throw. by simplify_eq.
Qed.

Lemma fallback_modelUsed w prompt model key r :
  generateMemeImageWithFallback w prompt model key = Ret r ->
  ImageResult.modelUsed r =
  if decide (model = dalle /\ key = "") then gemini else model.
Proof.
  rewrite fallback_unfold.
  destruct model, key as [|c key].
  all: match goal with
       | |- context [generateImage ?w ?p] => destruct (generateImage w p)
       | |- context [generateImageWithDalle ?w ?p ?k] => destruct (generateImageWithDalle w p k)
       end; simpl; try done.
  all: intros [= <-]; simpl; repeat case_decide; naive_solver.
Qed.

Lemma sampleUUID_inj j k : sampleUUID j = sampleUUID k -> j = k.
Proof.
  revert k. induction j as [|j IH]; intros [|k]; simpl; try done.
  intros [= H]. f_equal. by apply IH.
Qed.

(** C3 — For a non-empty list of concepts, whatever the order in which the
    callbacks finish, a batch that is assembled holds one artifact per
    concept, in the order of the concepts, each carrying its concept, each
    pending, each with the identifier its callback drew, and no two with the
    same identifier as long as the draws of [crypto.randomUUID] do not
    collide.  The batch is assembled whenever the OpenAI path answers for
    each concept scheduled to it. *)
Theorem batch_one_artifact_per_concept :
  forall rt concepts p key,
    concepts <> [] ->
    completion rt ≡ₚ seq 0 (length concepts) ->
    (forall j k, j < length concepts -> k < length concepts ->
       randomUUID rt j = randomUUID rt k -> j = k) ->
    ((forall i c, concepts !! i = Some c -> scheduledModel p i = dalle ->
        returns (generateImageWithDalle (world rt i) (MemeConcept.imagePrompt c) key)) ->
     returns (processConceptsIntoMemes rt (Ret (Some concepts)) p key)) /\
    (forall memes,
       processConceptsIntoMemes rt (Ret (Some concepts)) p key = Ret memes ->
       length memes = length concepts /\
       GeneratedMeme.concept <$> memes = concepts /\
       (forall m, m ∈ memes -> GeneratedMeme.status m = pending) /\
       (forall i m, memes !! i = Some m ->
          GeneratedMeme.id m = randomUUID rt (position i (completion rt))) /\
       NoDup (GeneratedMeme.id <$> memes)).
Proof.
  intros rt concepts p key Hne Hperm Hinj. split.
  - intros Hd. rewrite processConcepts_unfold by done.
    apply Promise_all_returns, Forall_lookup. intros i pr.
    rewrite list_lookup_imap. destruct (concepts !! i) as [c|] eqn:Hc; [|done].
    intros [= <-]. apply memePromise_returns. eauto.
  - intros memes Hret.
    destruct (processConcepts_Ret _ _ _ _ _ Hne Hret) as [Hlen Hat].
    assert (forall i m, memes !! i = Some m -> i ∈ completion rt) as Hin.
    { intros i m Hm%lookup_lt_Some. rewrite Hperm, elem_of_seq. lia. }
    assert (Hid : forall i m, memes !! i = Some m ->
              GeneratedMeme.id m = randomUUID rt (position i (completion rt))).
    { intros i m Hm. destruct (Hat i m Hm) as (c & _ & Hp).
      by apply memePromise_Ret in Hp as (_ & _ & ? & _). }
    repeat split; [done| | |done|].
    + apply list_eq. intros i. rewrite list_lookup_fmap.
      destruct (memes !! i) as [m|] eqn:Hm; simpl.
      * destruct (Hat i m Hm) as (c & -> & Hp).
        by apply memePromise_Ret in Hp as (-> & _).
      * symmetry. apply lookup_ge_None. apply lookup_ge_None in Hm. lia.
    + intros m [i Hm]%list_elem_of_lookup.
      destruct (Hat i m Hm) as (c & _ & Hp).
      by apply memePromise_Ret in Hp as (_ & ? & _).
    + apply NoDup_alt. intros i j x. rewrite !list_lookup_fmap.
      destruct (memes !! i) as [mi|] eqn:Hi; [|done].
      destruct (memes !! j) as [mj|] eqn:Hj; [|done].
      simpl. intros [= <-] [= Heq].
      rewrite (Hid _ _ Hi), (Hid _ _ Hj) in Heq.
      pose proof (Hin _ _ Hi) as Hini. pose proof (Hin _ _ Hj) as Hinj'.
      pose proof (position_lt _ _ Hini) as Hpi.
      pose proof (position_lt _ _ Hinj') as Hpj.
      rewrite (Permutation_length Hperm), length_seq in Hpi, Hpj.
      symmetry in Heq. apply Hinj in Heq; [|done..].
      by apply (position_inj _ _ (completion rt)).
Qed.

(** Five concepts, callbacks finishing as 2, 0, 4, 1, 3: five artifacts in
    the order of the concepts with five different identifiers. *)
Lemma batch_one_artifact_per_concept_runs :
  exists memes,
    processConceptsIntoMemes workingRuntime (Ret (Some fiveConcepts))
      (Preference.mk 3 2) "sk-1" = Ret memes /\
    GeneratedMeme.concept <$> memes = fiveConcepts /\
    GeneratedMeme.id <$> memes =
      ["a-4136c566a962"; "aaa-4136c566a962"; "-4136c566a962"; "aaaa-4136c566a962";
       "aa-4136c566a962"] /\
    NoDup (GeneratedMeme.id <$> memes).
Proof.
  eexists. split; [reflexivity|]. split; [reflexivity|]. split; [reflexivity|].
  refine (proj2 (proj2 (proj2 (proj2 (proj2
    (batch_one_artifact_per_concept workingRuntime fiveConcepts (Preference.mk 3 2) "sk-1"
       _ _ _) _ eq_refl))))).
  - discriminate.
  - simpl. by apply (bool_decide_unpack _).
  - intros j k _ _. apply sampleUUID_inj.
Defined.

(** C4 — The schedule is gemini repeated [g] times then dalle repeated [d]
    times, an index past its end is scheduled to gemini, and each artifact of
    an assembled batch reports the model scheduled at its index unless dalle
    was scheduled with an empty key.  With five concepts, the estimate
    (3, 2) and a key, the models reported are gemini, gemini, gemini, dalle,
    dalle. *)
Theorem schedule_follows_estimate :
  forall rt concepts p key memes,
    concepts <> [] ->
    processConceptsIntoMemes rt (Ret (Some concepts)) p key = Ret memes ->
    generatorSchedule p =
      (replicate (Preference.gemini p) gemini ++ replicate (Preference.dalle p) dalle)%list /\
    (forall index,
       generatorSchedule p !! index =
         if decide (index < Preference.gemini p) then Some gemini
         else if decide (index < Preference.gemini p + Preference.dalle p) then Some dalle
         else None) /\
    (forall index,
       length (generatorSchedule p) <= index -> scheduledModel p index = gemini) /\
    (forall index m, memes !! index = Some m ->
       GeneratedMeme.modelUsed m =
         if decide (scheduledModel p index = dalle /\ key = "") then gemini
         else scheduledModel p index) /\
    (p = Preference.mk 3 2 -> length concepts = 5 -> key <> "" ->
       GeneratedMeme.modelUsed <$> memes = [gemini; gemini; gemini; dalle; dalle]).
Proof.
  intros rt concepts p key memes Hne Hret.
  destruct (processConcepts_Ret _ _ _ _ _ Hne Hret) as [Hlen Hat].
  assert (Hused : forall index m, memes !! index = Some m ->
            GeneratedMeme.modelUsed m =
              if decide (scheduledModel p index = dalle /\ key = "") then gemini
              else scheduledModel p index).
  { intros index m Hm. destruct (Hat index m Hm) as (c & _ & Hp).
    apply memePromise_Ret in Hp as (_ & _ & _ & r & Hr & _ & ->).
    by apply fallback_modelUsed in Hr. }
  split; [done|]. split; [apply generatorSchedule_lookup|]. split; [|split; [done|]].
  - intros index Hi. unfold scheduledModel. by rewrite (proj2 (lookup_ge_None _ _) Hi).
  - intros -> Hfive Hkey. rewrite Hfive in Hlen.
    destruct memes as [|m0 [|m1 [|m2 [|m3 [|m4 [|? ?]]]]]]; try done.
    assert (Hs : forall index m, (m0 :: m1 :: m2 :: m3 :: [m4]) !! index = Some m ->
              GeneratedMeme.modelUsed m = scheduledModel (Preference.mk 3 2) index).
    { intros index m Hm. rewrite (Hused index m Hm).
      by destruct (decide (_ /\ _)) as [[_ ?]|]. }
    simpl. by rewrite (Hs 0 m0), (Hs 1 m1), (Hs 2 m2), (Hs 3 m3), (Hs 4 m4).
Qed.

(** Scenario A on the sample runtime: five artifacts whose models follow the
    schedule of (3, 2). *)
Lemma schedule_follows_estimate_runs :
  exists memes,
    processConceptsIntoMemes workingRuntime (Ret (Some fiveConcepts))
      (Preference.mk 3 2) "sk-1" = Ret memes /\
    GeneratedMeme.modelUsed <$> memes = [gemini; gemini; gemini; dalle; dalle].
Proof.
  eexists. split; [reflexivity|].
  refine (proj2 (proj2 (proj2 (proj2
    (schedule_follows_estimate workingRuntime fiveConcepts (Preference.mk 3 2) "sk-1"
       _ _ eq_refl)))) eq_refl eq_refl _); discriminate.
Defined.

(** C8 (where the code departs from it) — With dalle scheduled at index 3, a
    key present, and an answer of OpenAI to that callback with status 200
    and a body that is no JSON, the callback rejects and the whole batch
    with it, although the Gemini image path and the alt-text path of the
    same callback both settle to a value. *)
Theorem batch_rejects_on_unparsable_openai_body :
  returns (generateImage brokenOpenAi "prompt 4") /\
  returns (generateImageAltText brokenOpenAi (sampleConcept "4")) /\
  generateImageWithDalle brokenOpenAi "prompt 4" "sk-1" =
    Throw (Error "Unexpected token < in JSON at position 0") /\
  memePromise brokenRuntime (Preference.mk 3 2) "sk-1" 3 (sampleConcept "4") =
    Throw (Error "Unexpected token < in JSON at position 0") /\
  processConceptsIntoMemes brokenRuntime (Ret (Some fiveConcepts))
    (Preference.mk 3 2) "sk-1" =
    Throw (Error "Unexpected token < in JSON at position 0").
Proof.
  split; [apply generateImage_returns|].
  split; [apply generateImageAltText_returns|].
  repeat split.
Qed.

(** ** An empty concept list *)

Lemma getModelPreference_returns be url key : returns (getModelPreference be url key).
Proof.
  unfold getModelPreference.
  destruct (getApprovedMemes_returns be url key) as [h ->]. by eexists.
Qed.

(** C9 — When the concept request resolves to no list or to an empty list,
    [processConceptsIntoMemes] rejects with its own error and yields no
    artifact, so do both [generateMemes...] entry points, and a session that
    started the generation ends with an empty list of memes and the friendly
    message of that error. *)
Theorem empty_concepts_abort_batch :
  forall be rt (concepts : ConceptService) noConcepts,
    noConcepts = None \/ noConcepts = Some [] ->
    (forall request examples, concepts request examples = Ret noConcepts) ->
    (forall p key,
       processConceptsIntoMemes rt (Ret noConcepts) p key =
         Throw (Error "AI did not return any meme concepts.")) /\
    (forall headline examples key url anon,
       generateMemesFromHeadline be rt concepts headline examples key url anon =
         Throw (Error "AI did not return any meme concepts.")) /\
    (forall links customPrompt examples key url anon,
       generateMemesFromInspiration be rt concepts links customPrompt examples key url anon =
         Throw (Error "AI did not return any meme concepts.")) /\
    (forall generatorType s,
       Session.isLoading s = false ->
       Session.isSupabaseConnected s = true ->
       let s' := runMemeGeneration be rt concepts generatorType s in
       Session.memes s' = [] /\
       Session.error s' =
         Some "An AI service failed. This could be due to a temporary outage or a rejected prompt. Please adjust your input or try again later.").
Proof.
  intros be rt concepts noConcepts Hno Hconcepts.
  assert (Hp : forall p key,
             processConceptsIntoMemes rt (Ret noConcepts) p key =
               Throw (Error "AI did not return any meme concepts.")).
  { by destruct Hno as [-> | ->]. }
  assert (Hh : forall headline examples key url anon,
             generateMemesFromHeadline be rt concepts headline examples key url anon =
               Throw (Error "AI did not return any meme concepts.")).
  { intros. unfold generateMemesFromHeadline.
    destruct (getModelPreference_returns be url anon) as [p ->]. simpl.
    rewrite Hconcepts. apply Hp. }
  assert (Hi : forall links customPrompt examples key url anon,
             generateMemesFromInspiration be rt concepts links customPrompt examples
               key url anon =
               Throw (Error "AI did not return any meme concepts.")).
  { intros. unfold generateMemesFromInspiration.
    destruct (getModelPreference_returns be url anon) as [p ->]. simpl.
    rewrite Hconcepts. apply Hp. }
  split; [done|]. split; [done|]. split; [done|].
  intros generatorType s Hidle Hconn. unfold runMemeGeneration.
  rewrite Hidle, Hconn. cbn [negb].
  destruct (getApprovedMemes_returns be (Session.supabaseUrl s)
              (Session.supabaseAnonKey s)) as [ex ->].
  cbn [mbind Res_bind bind].
  destruct generatorType; rewrite ?Hh, ?Hi; by split.
Qed.

(** Scenario B: the text model answers with an empty list; the session ends
    with no meme and the message of a failed AI service. *)
Lemma empty_concepts_abort_batch_runs :
  let after :=
    runMemeGeneration (sampleBackend None None) workingRuntime
      (fun _ _ => Ret (Some [])) headlineGenerator sampleSession in
  Session.memes after = [] /\
  Session.error after =
    Some "An AI service failed. This could be due to a temporary outage or a rejected prompt. Please adjust your input or try again later.".
Proof.
  exact (proj2 (proj2 (proj2
    (empty_concepts_abort_batch (sampleBackend None None) workingRuntime
       (fun _ _ => Ret (Some [])) (Some []) (or_intror eq_refl) (fun _ _ => eq_refl))))
    headlineGenerator sampleSession eq_refl eq_refl).
Defined.

(** ** The store write *)

Lemma getSupabaseClient_Ret throws url key client :
  getSupabaseClient throws url key = Ret client <->
  url <> "" /\ key <> "" /\ throws url key = None /\
  client = {| client_url := url; client_key := key |}.
Proof.
  unfold getSupabaseClient, createClient.
  destruct url as [|c url], key as [|d key]; simpl.
  1-3: split; [done | by intros (? & ? & _)].
  destruct (throws _ _) as [e|].
  - split; [done | by intros (_ & _ & ? & _)].
  - split; [by intros [= <-] | by intros (_ & _ & _ & ->)].
Qed.

Lemma getSupabaseClient_Throw throws url key e :
  getSupabaseClient throws url key = Throw e <->
  ((url = "" \/ key = "") /\ e = Error "Supabase URL and Anon Key are required.") \/
  (url <> "" /\ key <> "" /\ throws url key = Some e).
Proof.
  unfold getSupabaseClient, createClient.
  destruct url as [|c url], key as [|d key]; simpl.
  1-3: split; [intros [= <-]; left; auto | by intros [[_ ->]|(? & ? & _)]].
  destruct (throws _ _) as [e'|].
  - split; [intros [= <-]; by right | by intros [[[?|?] _]|(_ & _ & [= <-])]].
  - split; [done | by intros [[[?|?] _]|(_ & _ & ?)]].
Qed.

Lemma addApprovedMeme_outcome be newMeme url key :
  WriteOutcome be url key (addApprovedMeme be newMeme url key).1
    (addApprovedMeme be newMeme url key).2.
Proof.
  unfold addApprovedMeme.
  destruct (getSupabaseClient _ url key) as [client|e] eqn:Hclient; [|constructor].
  destruct (base64ToBlob be _ _) as [imageBlob|e]; [|constructor].
  destruct (storage_upload be client _ imageBlob) as [message|] eqn:Hup;
    [by econstructor|].
  destruct (table_insert be client _) as [message|] eqn:Hins; by econstructor.
Qed.

Lemma uploadFailure_cases message :
  uploadFailure message ∈ [UPLOAD_POLICY_DENIED; UPLOAD_BUCKET_NOT_FOUND; UPLOAD_FAILED].
Proof. unfold uploadFailure. repeat case_match; rewrite !elem_of_cons; auto. Qed.

Lemma uploadFailure_policy message :
  Js.includes message "security policy" = true ->
  uploadFailure message = UPLOAD_POLICY_DENIED.
Proof.
  intros Hin%includes_toLowerCase. unfold uploadFailure.
  change (Js.toLowerCase "security policy") with "security policy" in Hin.
  by rewrite Hin.
Qed.

Lemma uploadFailure_not_found message :
  Js.includes message "not found" = true ->
  Js.includes (Js.toLowerCase message) "security policy" = false ->
  Js.includes (Js.toLowerCase message) "violates row-level security" = false ->
  uploadFailure message = UPLOAD_BUCKET_NOT_FOUND.
Proof.
  intros Hin%includes_toLowerCase Hp1 Hp2. unfold uploadFailure.
  change (Js.toLowerCase "not found") with "not found" in Hin.
  by rewrite Hp1, Hp2, Hin.
Qed.

(** C2 — [addApprovedMeme] sends the upload first and the insert only after
    an accepted upload.  With the client built and the image decoded, the
    first request is the upload of the blob to [public/<id>.<extension>];
    when that upload is refused, it is the only request sent and the call
    rejects with the error chosen from the message, one of the three upload
    errors: the policy error when the message contains "security policy",
    the bucket error when the message contains "not found" and is no policy
    message.  When the upload is accepted, the insert of the row follows.
    Without a client or without a decoded image no request is sent. *)
Theorem upload_failure_stops_the_write :
  forall be newMeme url key calls result,
    addApprovedMeme be newMeme url key = (calls, result) ->
    (forall i row, calls !! i = Some (Insert row) ->
       i = 1 /\
       exists client filePath imageBlob,
         getSupabaseClient (createClient_throws be) url key = Ret client /\
         calls !! 0 = Some (Upload filePath imageBlob) /\
         storage_upload be client filePath imageBlob = None) /\
    (forall client filePath imageBlob message,
       getSupabaseClient (createClient_throws be) url key = Ret client ->
       calls !! 0 = Some (Upload filePath imageBlob) ->
       storage_upload be client filePath imageBlob = Some message ->
       calls = [Upload filePath imageBlob] /\
       (forall row, Insert row ∉ calls) /\
       result = Throw (uploadFailure message) /\
       uploadFailure message ∈
         [UPLOAD_POLICY_DENIED; UPLOAD_BUCKET_NOT_FOUND; UPLOAD_FAILED] /\
       (Js.includes message "security policy" = true ->
        result = Throw UPLOAD_POLICY_DENIED) /\
       (Js.includes message "not found" = true ->
        Js.includes (Js.toLowerCase message) "security policy" = false ->
        Js.includes (Js.toLowerCase message) "violates row-level security" = false ->
        result = Throw UPLOAD_BUCKET_NOT_FOUND)) /\
    (forall client imageBlob,
       let mimeType :=
         if Js.startsWith (GeneratedMeme.imageUrl newMeme) "data:image/png"
         then "image/png" else "image/jpeg" in
       let filePath :=
         "public/" +:+ GeneratedMeme.id newMeme +:+ "." +:+
         extensionOf (GeneratedMeme.imageUrl newMeme) in
       getSupabaseClient (createClient_throws be) url key = Ret client ->
       base64ToBlob be (GeneratedMeme.imageUrl newMeme) mimeType = Ret imageBlob ->
       calls !! 0 = Some (Upload filePath imageBlob) /\
       (forall message,
          storage_upload be client filePath imageBlob = Some message ->
          calls = [Upload filePath imageBlob] /\
          result = Throw (uploadFailure message) /\
          (Js.includes message "security policy" = true ->
           result = Throw UPLOAD_POLICY_DENIED) /\
          (Js.includes message "not found" = true ->
           Js.includes (Js.toLowerCase message) "security policy" = false ->
           Js.includes (Js.toLowerCase message) "violates row-level security" = false ->
           result = Throw UPLOAD_BUCKET_NOT_FOUND)) /\
       (storage_upload be client filePath imageBlob = None ->
        calls = [Upload filePath imageBlob;
                 Insert (rowOf newMeme (storage_getPublicUrl be client filePath))])) /\
    (forall e,
       getSupabaseClient (createClient_throws be) url key = Throw e \/
       base64ToBlob be (GeneratedMeme.imageUrl newMeme)
         (if Js.startsWith (GeneratedMeme.imageUrl newMeme) "data:image/png"
          then "image/png" else "image/jpeg") = Throw e ->
       calls = []).
Proof.
  intros be newMeme url key calls result Hrun.
  split; [|split; [|split]].
  - pose proof (addApprovedMeme_outcome be newMeme url key) as Hout.
    rewrite Hrun in Hout. simpl in Hout.
    destruct Hout as [e|client filePath imageBlob message Hclient Hup
                        |client filePath imageBlob row message Hclient Hup Hins
                        |client filePath imageBlob row Hclient Hup Hins].
    + by intros i row.
    + by intros [|[|i]] row.
    + intros [|[|i]] row'; try done. intros _. split; [done|].
      by exists client, filePath, imageBlob.
    + intros [|[|i]] row'; try done. intros _. split; [done|].
      by exists client, filePath, imageBlob.
  - pose proof (addApprovedMeme_outcome be newMeme url key) as Hout.
    rewrite Hrun in Hout. simpl in Hout.
    destruct Hout as [e|client filePath imageBlob message Hclient Hup
                        |client filePath imageBlob row message Hclient Hup Hins
                        |client filePath imageBlob row Hclient Hup Hins].
    + by intros client filePath imageBlob message _.
    + intros client' filePath' imageBlob' message'. rewrite Hclient.
      intros [= <-] [= <- <-]. rewrite Hup. intros [= <-].
      split; [done|]. split.
      { intros row [?|?%elem_of_nil]%elem_of_cons; done. }
      split; [done|]. split; [apply uploadFailure_cases|]. split.
      * by intros ->%uploadFailure_policy.
      * intros Hnf Hp1 Hp2. by rewrite (uploadFailure_not_found _ Hnf Hp1 Hp2).
    + intros client' filePath' imageBlob' message'. rewrite Hclient.
      intros [= <-] [= <- <-]. by rewrite Hup.
    + intros client' filePath' imageBlob' message'. rewrite Hclient.
      intros [= <-] [= <- <-]. by rewrite Hup.
  - intros client imageBlob mimeType filePath Hclient Hblob.
    unfold addApprovedMeme in Hrun. rewrite Hclient in Hrun.
    fold mimeType in Hrun. rewrite Hblob in Hrun.
    assert (Hpath : "public/" +:+ GeneratedMeme.id newMeme +:+ "." +:+
                    default "undefined" (Js.split "/" mimeType !! 1) = filePath).
    { unfold filePath, mimeType, extensionOf.
      by destruct (Js.startsWith _ _). }
    rewrite Hpath in Hrun.
    destruct (storage_upload be client filePath imageBlob) as [message|].
    + injection Hrun as <- <-. split; [done|]. split; [|done].
      intros message' [= <-]. split; [done|]. split; [done|]. split.
      * by intros ->%uploadFailure_policy.
      * intros Hnf Hp1 Hp2. by rewrite (uploadFailure_not_found _ Hnf Hp1 Hp2).
    + destruct (table_insert be client _); injection Hrun as <- <-;
        (split; [done|]); (split; [done|]); done.
  - intros e [Hclient|Hblob]; unfold addApprovedMeme in Hrun.
    + rewrite Hclient in Hrun. by injection Hrun as <- <-.
    + destruct (getSupabaseClient _ url key); [|by injection Hrun as <- <-].
      rewrite Hblob in Hrun. by injection Hrun as <- <-.
Qed.

(** Scenario C: the upload is refused with a row-level security message;
    the upload is the only request sent and the policy error surfaces. *)
Lemma upload_failure_stops_the_write_runs :
  let outcome :=
    addApprovedMeme
      (sampleBackend (Some "new row violates row-level security policy") None)
      (sampleMeme "id-1" pending) "https://kmfny.supabase.co" "anon-key" in
  outcome.1 =
    [Upload "public/id-1.png" {| blob_bytes := "iVBORw0KGgo"; blob_type := "image/png" |}] /\
  (forall row, Insert row ∉ outcome.1) /\ outcome.2 = Throw UPLOAD_POLICY_DENIED.
Proof.
  intros outcome.
  destruct (upload_failure_stops_the_write
              (sampleBackend (Some "new row violates row-level security policy") None)
              (sampleMeme "id-1" pending) "https://kmfny.supabase.co" "anon-key"
              outcome.1 outcome.2 eq_refl) as (_ & Hrefused & Hdirect & _).
  destruct (Hrefused {| client_url := "https://kmfny.supabase.co"; client_key := "anon-key" |}
              "public/id-1.png"
              {| blob_bytes := "iVBORw0KGgo"; blob_type := "image/png" |}
              "new row violates row-level security policy"
              eq_refl eq_refl eq_refl) as (_ & Hnone & _ & _ & Hpolicy & _).
  destruct (Hdirect {| client_url := "https://kmfny.supabase.co"; client_key := "anon-key" |}
              {| blob_bytes := "iVBORw0KGgo"; blob_type := "image/png" |}
              eq_refl eq_refl) as (_ & Hsent & _).
  split; [exact (proj1 (Hsent "new row violates row-level security policy" eq_refl))|].
  split; [exact Hnone | exact (Hpolicy eq_refl)].
Defined.

(** ** Approval *)

Lemma setStatus_id id status meme :
  GeneratedMeme.id (setStatus id status meme) = GeneratedMeme.id meme.
Proof. unfold setStatus. by case_decide. Qed.

(** A later status change of the same meme hides the earlier one. *)
Lemma setStatus_twice id status status' meme :
  setStatus id status' (setStatus id status meme) = setStatus id status' meme.
Proof. unfold setStatus. repeat case_decide; done. Qed.

Lemma setStatus_status id status meme :
  GeneratedMeme.status (setStatus id status meme) =
  if decide (GeneratedMeme.id meme = id) then status else GeneratedMeme.status meme.
Proof. unfold setStatus. by case_decide. Qed.

Lemma find_by_id id memes memeToApprove :
  List.find (fun meme => bool_decide (GeneratedMeme.id meme = id)) memes = Some memeToApprove ->
  memeToApprove ∈ memes /\ GeneratedMeme.id memeToApprove = id.
Proof.
  intros [Hin Hid]%find_some. split; [by apply list_elem_of_In|].
  by apply bool_decide_eq_true in Hid.
Qed.

Lemma find_by_id_None id memes meme :
  List.find (fun meme => bool_decide (GeneratedMeme.id meme = id)) memes = None ->
  meme ∈ memes -> GeneratedMeme.id meme <> id.
Proof.
  intros Hnone Hin%list_elem_of_In Hid.
  pose proof (find_none _ _ Hnone _ Hin) as Hb. simpl in Hb.
  by apply bool_decide_eq_false in Hb.
Qed.

(** The list after an approval that was taken back. *)
Lemma reverted_memes id e s :
  Session.memes
    (Session.setError e (handleStatusChange id pending (handleStatusChange id approved s))) =
  List.map (setStatus id pending) (Session.memes s).
Proof.
  change (List.map (setStatus id pending) (List.map (setStatus id approved) (Session.memes s)) =
          List.map (setStatus id pending) (Session.memes s)).
  rewrite List.map_map. apply List.map_ext. intros. apply setStatus_twice.
Qed.

(** C1 — When [handleApprove] reaches the store and the write rejects, the
    session shows the list it had with the approved meme back to pending, so
    every meme of that id is pending and none is approved; the friendly
    message of the rejection is shown.  Whatever happens, a meme of that id
    that is approved after [handleApprove] either went through a write that
    succeeded or was approved before in a session that never reached the
    store. *)
Theorem failed_write_reverts_to_pending :
  forall be id s,
    let after := (handleApprove be id s).1 in
    (forall memeToApprove calls err,
       Session.isSupabaseConnected s = true ->
       List.find (fun meme => bool_decide (GeneratedMeme.id meme = id)) (Session.memes s)
         = Some memeToApprove ->
       addApprovedMeme be memeToApprove (Session.supabaseUrl s) (Session.supabaseAnonKey s)
         = (calls, Throw err) ->
       Session.memes after = List.map (setStatus id pending) (Session.memes s) /\
       (exists meme, meme ∈ Session.memes after /\ GeneratedMeme.id meme = id) /\
       (forall meme, meme ∈ Session.memes after -> GeneratedMeme.id meme = id ->
          GeneratedMeme.status meme = pending) /\
       Session.error after = Some (getFriendlyErrorMessage err)) /\
    (forall meme,
       meme ∈ Session.memes after -> GeneratedMeme.id meme = id ->
       GeneratedMeme.status meme = approved ->
       (exists memeToApprove calls,
          Session.isSupabaseConnected s = true /\
          List.find (fun meme => bool_decide (GeneratedMeme.id meme = id)) (Session.memes s)
            = Some memeToApprove /\
          addApprovedMeme be memeToApprove (Session.supabaseUrl s)
            (Session.supabaseAnonKey s) = (calls, Ret ())) \/
       (Session.isSupabaseConnected s = false /\ meme ∈ Session.memes s)).
Proof.
  intros be id s after. subst after. unfold handleApprove. split.
  - intros memeToApprove calls err Hconn Hfind Hwrite.
    rewrite Hconn, Hfind, Hwrite. cbn [negb fst].
    rewrite reverted_memes.
    split; [done|]. split; [|split; [|done]].
    + destruct (find_by_id _ _ _ Hfind) as [Hin Hid].
      exists (setStatus id pending memeToApprove). split.
      * by apply list_elem_of_fmap_2.
      * by rewrite setStatus_id.
    + intros meme (m & -> & _)%list_elem_of_fmap.
      rewrite setStatus_id, setStatus_status. intros ->. by rewrite decide_True.
  - intros meme. destruct (Session.isSupabaseConnected s) eqn:Hconn; cbn [negb].
    + destruct (List.find _ (Session.memes s)) as [memeToApprove|] eqn:Hfind.
      * destruct (addApprovedMeme be memeToApprove _ _) as [calls [[]|err]] eqn:Hwrite.
        -- intros _ _ _. left. by exists memeToApprove, calls.
        -- cbn [fst]. rewrite reverted_memes.
           intros (m & -> & _)%list_elem_of_fmap.
           rewrite setStatus_id, setStatus_status.
           intros ->. by rewrite decide_True.
      * cbn [fst]. intros Hin Hid. by destruct (find_by_id_None _ _ _ Hfind Hin).
    + intros Hin _ _. by right.
Qed.

(** The upload of the first sample meme is refused: it is pending again, the
    other meme is untouched, and the session shows the message. *)
Lemma failed_write_reverts_to_pending_runs :
  let be := sampleBackend (Some "Bucket not found") None in
  let after := (handleApprove be "id-1" (handleReject "id-1" sampleSession)).1 in
  Session.memes after = [sampleMeme "id-1" pending; sampleMeme "id-2" rejected] /\
  forall meme, meme ∈ Session.memes after -> GeneratedMeme.id meme = "id-1" ->
    GeneratedMeme.status meme = pending.
Proof.
  intros be after.
  destruct (proj1 (failed_write_reverts_to_pending be "id-1"
                     (handleReject "id-1" sampleSession))
              (sampleMeme "id-1" rejected)
              [Upload "public/id-1.png"
                 {| blob_bytes := "iVBORw0KGgo"; blob_type := "image/png" |}]
              UPLOAD_BUCKET_NOT_FOUND eq_refl eq_refl eq_refl)
    as (Hmemes & _ & Hpending & _).
  split; [exact Hmemes | exact Hpending].
Defined.


(** * Further properties of the code *)

(** ** Reading the store *)

(** X1 — [getApprovedMemes] never rejects.  Without a url or a key it
    resolves to the empty list; when the client is built and the select
    answers with rows it resolves to one concept per row, in the order of
    the rows, with the row's texts and model; when [createClient] throws,
    and on every other answer of the select, it resolves to the empty
    list. *)
Theorem stored_examples_read :
  forall be url key,
    exists history,
      getApprovedMemes be url key = Ret history /\
      (url = "" \/ key = "" -> history = []) /\
      (forall rows,
         url <> "" -> key <> "" ->
         createClient_throws be url key = None ->
         table_select be {| client_url := url; client_key := key |} MAX_EXAMPLES
           = SelectData rows ->
         history = conceptOfRow <$> rows) /\
      (url <> "" -> key <> "" ->
       createClient_throws be url key <> None \/
       (forall rows,
          table_select be {| client_url := url; client_key := key |} MAX_EXAMPLES
            <> SelectData rows) ->
       history = []).
Proof.
  intros be url key. unfold getApprovedMemes, getSupabaseClient, createClient.
  destruct url as [|c url], key as [|d key]; simpl.
  1-3: exists []; repeat split; try done; intros; naive_solver.
  destruct (createClient_throws be _ _) as [e|] eqn:Hcreate; simpl.
  { exists []. repeat split; try done; by intros [?|?]. }
  destruct (table_select be _ MAX_EXAMPLES) as [e|message|rows] eqn:Hsel; simpl.
  - exists []. repeat split; try done; by intros [?|?].
  - exists []. repeat split; try done; by intros [?|?].
  - exists (conceptOfRow <$> rows). repeat split.
    + by intros [?|?].
    + by intros rows' _ _ _ [= <-].
    + intros _ _ [?|Hno]; [done|]. by destruct (Hno rows).
Qed.

(** X2 — Without a url or a key, or when the select brings no row,
    [getModelPreference] resolves to three for gemini and two for dalle. *)
Theorem preference_without_history :
  forall be url key,
    url = "" \/ key = "" \/
    (forall rows,
       table_select be {| client_url := url; client_key := key |} MAX_EXAMPLES
         = SelectData rows -> rows = []) ->
    getModelPreference be url key = Ret (Preference.mk 3 2).
Proof.
  intros be url key Hcase.
  unfold getModelPreference, getApprovedMemes, getSupabaseClient, createClient.
  destruct url as [|c url], key as [|d key]; simpl; try done.
  destruct Hcase as [?|[?|Hrows]]; try done.
  destruct (createClient_throws be _ _); simpl; [done|].
  destruct (table_select be _ MAX_EXAMPLES) as [e|message|rows] eqn:Hsel; simpl; try done.
  by rewrite (Hrows rows eq_refl).
Qed.

(** A project whose select rejects: the preference is the default one. *)
Lemma preference_without_history_runs :
  getModelPreference
    {| createClient_throws := fun _ _ => None;
       atob := fun encoded => Some encoded;
       storage_upload := fun _ _ _ => None;
       storage_getPublicUrl := fun _ filePath => filePath;
       table_insert := fun _ _ => None;
       table_select := fun _ _ => SelectRejects (Error "Failed to fetch") |}
    "https://kmfny.supabase.co" "anon-key" = Ret (Preference.mk 3 2).
Proof.
  apply preference_without_history. right. right. intros rows Hrows. discriminate Hrows.
Defined.

(** ** Writing to the store *)

(** X3 — When [addApprovedMeme] resolves, it has sent exactly one upload and
    one insert: the file lies under [public/], is named after the meme's id
    with the extension [png] for a PNG data URL and [jpeg] for anything
    else, and holds what [atob] made of the second comma-separated piece of
    the image URL; the row carries the meme's id, texts, prompt and model
    and the public URL of that file. *)
Theorem approved_meme_is_stored_as_shown :
  forall be newMeme url key calls,
    addApprovedMeme be newMeme url key = (calls, Ret ()) ->
    let client := {| client_url := url; client_key := key |} in
    let filePath :=
      "public/" +:+ GeneratedMeme.id newMeme +:+ "." +:+
      extensionOf (GeneratedMeme.imageUrl newMeme) in
    exists byteCharacters,
      url <> "" /\ key <> "" /\
      atob be (default "undefined" (Js.split "," (GeneratedMeme.imageUrl newMeme) !! 1))
        = Some byteCharacters /\
      calls =
        [Upload filePath
           {| blob_bytes := byteCharacters;
              blob_type := "image/" +:+ extensionOf (GeneratedMeme.imageUrl newMeme) |};
         Insert (rowOf newMeme (storage_getPublicUrl be client filePath))].
Proof.
  intros be newMeme url key calls.
  unfold addApprovedMeme, getSupabaseClient, createClient, base64ToBlob, extensionOf.
  destruct url as [|c url], key as [|d key]; simpl; try done.
  destruct (createClient_throws be _ _); [done|].
  destruct (atob be _) as [bytes|] eqn:Hatob; [|done].
  destruct (Js.startsWith (GeneratedMeme.imageUrl newMeme) "data:image/png"); simpl.
  all: destruct (storage_upload be _ _ _); [done|].
  all: destruct (table_insert be _ _); [done|].
  all: intros [= <-]; by exists bytes.
Qed.

(** A PNG meme stored in a project that accepts everything. *)
Lemma approved_meme_is_stored_as_shown_runs :
  exists byteCharacters,
    "https://kmfny.supabase.co" <> "" /\ "anon-key" <> "" /\
    Some "iVBORw0KGgo" = Some byteCharacters /\
    (addApprovedMeme (sampleBackend None None) (sampleMeme "id-1" pending)
       "https://kmfny.supabase.co" "anon-key").1 =
      [Upload "public/id-1.png"
         {| blob_bytes := byteCharacters; blob_type := "image/png" |};
       Insert (rowOf (sampleMeme "id-1" pending)
                 "https://kmfny.supabase.co/storage/v1/object/public/memes/public/id-1.png")].
Proof.
  exact (approved_meme_is_stored_as_shown (sampleBackend None None)
           (sampleMeme "id-1" pending) "https://kmfny.supabase.co" "anon-key" _ eq_refl).
Defined.

(** X4 — When [addApprovedMeme] rejects after it sent an insert, the upload
    before it had been accepted and stays in the bucket; the rejection is
    the table-policy error when the message of the insert contains
    "violates row-level security" or "security policy for table", and
    otherwise an error that quotes the message. *)
Theorem refused_insert_leaves_upload :
  forall be newMeme url key calls err row,
    addApprovedMeme be newMeme url key = (calls, Throw err) ->
    Insert row ∈ calls ->
    exists filePath imageBlob message,
      calls = [Upload filePath imageBlob; Insert row] /\
      storage_upload be {| client_url := url; client_key := key |} filePath imageBlob = None /\
      table_insert be {| client_url := url; client_key := key |} row = Some message /\
      err = insertFailure message /\
      (Js.includes message "violates row-level security" = true \/
       Js.includes message "security policy for table" = true ->
       err = INSERT_POLICY_DENIED) /\
      (Js.includes (Js.toLowerCase message) "violates row-level security" = false ->
       Js.includes (Js.toLowerCase message) "security policy for table" = false ->
       err = Error ("Failed to save meme metadata: " +:+ message)).
Proof.
  intros be newMeme url key calls err row Hrun Hin.
  pose proof (addApprovedMeme_outcome be newMeme url key) as Hout.
  rewrite Hrun in Hout. simpl in Hout.
  assert (Hclient : forall client,
            getSupabaseClient (createClient_throws be) url key = Ret client ->
            client = {| client_url := url; client_key := key |}).
  { intros client Hc. by apply getSupabaseClient_Ret in Hc as (_ & _ & _ & ->). }
  inversion Hout as [e|client filePath imageBlob message Hc Hup
                      |client filePath imageBlob row' message Hc Hup Hins|];
    subst; clear Hout.
  - by apply elem_of_nil in Hin.
  - apply elem_of_cons in Hin as [?|?%elem_of_nil]; done.
  - apply elem_of_cons in Hin as [?|Hin]; [done|].
    apply elem_of_cons in Hin as [[= <-]|?%elem_of_nil]; [|done].
    rewrite (Hclient _ Hc) in Hup, Hins.
    exists filePath, imageBlob, message. repeat split; try done.
    + unfold insertFailure.
      intros [H%includes_toLowerCase|H%includes_toLowerCase].
      * change (Js.toLowerCase "violates row-level security")
          with "violates row-level security" in H.
        rewrite H. by rewrite orb_true_r.
      * change (Js.toLowerCase "security policy for table")
          with "security policy for table" in H.
        by rewrite H.
    + intros H1 H2. unfold insertFailure. by rewrite H1, H2.
Qed.

(** An insert refused for a duplicate key: the upload stays. *)
Lemma refused_insert_leaves_upload_runs :
  exists filePath imageBlob message,
    (addApprovedMeme
       (sampleBackend None (Some "duplicate key value violates unique constraint"))
       (sampleMeme "id-1" pending) "https://kmfny.supabase.co" "anon-key").1 =
      [Upload filePath imageBlob;
       Insert (rowOf (sampleMeme "id-1" pending)
                 "https://kmfny.supabase.co/storage/v1/object/public/memes/public/id-1.png")] /\
    Error "Failed to save meme metadata: duplicate key value violates unique constraint"
      = insertFailure message.
Proof.
  destruct (refused_insert_leaves_upload
              (sampleBackend None (Some "duplicate key value violates unique constraint"))
              (sampleMeme "id-1" pending) "https://kmfny.supabase.co" "anon-key" _ _
              (rowOf (sampleMeme "id-1" pending)
                 "https://kmfny.supabase.co/storage/v1/object/public/memes/public/id-1.png")
              eq_refl)
    as (filePath & imageBlob & message & Hcalls & _ & _ & Herr & _).
  { apply elem_of_cons. right. apply elem_of_cons. by left. }
  exists filePath, imageBlob, message. split; [exact Hcalls | exact Herr].
Defined.

Lemma addApprovedMeme_without_credentials be newMeme url key :
  url = "" \/ key = "" ->
  addApprovedMeme be newMeme url key =
    ([], Throw (Error "Supabase URL and Anon Key are required.")).
Proof.
  unfold addApprovedMeme, getSupabaseClient.
  destruct url as [|c url], key as [|d key]; simpl; try done. by intros [?|?].
Qed.

(** X5 — [addApprovedMeme] sends nothing exactly when the url or the key is
    empty, [createClient] throws or [atob] refuses the image; it then
    rejects: for an empty url or key with "Supabase URL and Anon Key are
    required.", and for a url and key that [createClient] does not accept
    with what [createClient] threw. *)
Theorem write_sends_nothing_when_invalid :
  forall be newMeme url key,
    let outcome := addApprovedMeme be newMeme url key in
    (outcome.1 = [] <->
     url = "" \/ key = "" \/ createClient_throws be url key <> None \/
     atob be (default "undefined" (Js.split "," (GeneratedMeme.imageUrl newMeme) !! 1))
       = None) /\
    (outcome.1 = [] -> raises outcome.2) /\
    (url = "" \/ key = "" ->
     outcome = ([], Throw (Error "Supabase URL and Anon Key are required."))) /\
    (forall e,
       url <> "" -> key <> "" -> createClient_throws be url key = Some e ->
       outcome = ([], Throw e)).
Proof.
  intros be newMeme url key outcome. subst outcome.
  unfold addApprovedMeme, getSupabaseClient, createClient, base64ToBlob.
  destruct url as [|c url], key as [|d key]; simpl.
  1-3: split; [split; [intros _; auto | done] | split; [by eexists | done]].
  destruct (createClient_throws be _ _) as [e|] eqn:Hcreate; simpl.
  { split; [split; [intros _; auto | done]|].
    split; [by eexists|]. split; [by intros [?|?]|]. by intros e' _ _ [= <-]. }
  destruct (atob be _) as [bytes|] eqn:Hatob; simpl.
  - destruct (storage_upload be _ _ _); [|destruct (table_insert be _ _)]; simpl.
    all: split; [split; [done | by intros [?|[?|[?|?]]]]
                | split; [done | split; [by intros [?|?] | done]]].
  - split; [split; [auto | done] | split; [by eexists | split; [by intros [?|?] | done]]].
Qed.

(** A url without its scheme: [createClient] throws, nothing is sent, and
    the write rejects with what [createClient] threw. *)
Lemma write_sends_nothing_when_invalid_runs :
  addApprovedMeme strictBackend (sampleMeme "id-1" pending) "kmfny.supabase.co" "anon-key"
    = ([], Throw INVALID_SUPABASE_URL).
Proof.
  exact (proj2 (proj2 (proj2
           (write_sends_nothing_when_invalid strictBackend (sampleMeme "id-1" pending)
              "kmfny.supabase.co" "anon-key")))
           INVALID_SUPABASE_URL ltac:(discriminate) ltac:(discriminate) eq_refl).
Defined.

(** ** Messages shown to the operator *)

Lemma includes_empty p : p <> "" -> Js.includes "" p = false.
Proof. by destruct p. Qed.

(** X6 — Whatever thrown value reaches [getFriendlyErrorMessage], the
    message it makes is not the empty string, so the error banner of the
    page, which shows on a truthy [error], appears. *)
Theorem friendly_message_is_never_empty :
  forall err, getFriendlyErrorMessage err <> "".
Proof.
  intros [message|]; [|done]. unfold getFriendlyErrorMessage.
  destruct (Js.includes message "OpenAI Billing Limit Reached") eqn:Hbilling.
  - intros ->. by rewrite includes_empty in Hbilling.
  - repeat case_match; done.
Qed.

(** X7 — When the store refuses the upload of an approved meme, or the url
    or the key of the project is empty, the session does not show the
    store's own error text: [handleApprove] shows the text for a failed AI
    service. *)
Theorem refused_upload_shows_ai_message :
  forall be id s memeToApprove calls err,
    Session.isSupabaseConnected s = true ->
    List.find (fun meme => bool_decide (GeneratedMeme.id meme = id)) (Session.memes s)
      = Some memeToApprove ->
    addApprovedMeme be memeToApprove (Session.supabaseUrl s) (Session.supabaseAnonKey s)
      = (calls, Throw err) ->
    (Session.supabaseUrl s = "" \/ Session.supabaseAnonKey s = "" \/
     exists filePath imageBlob, calls = [Upload filePath imageBlob]) ->
    Session.error (handleApprove be id s).1 = Some AI_SERVICE_FAILED.
Proof.
  intros be id s memeToApprove calls err Hconn Hfind Hwrite Hcase.
  unfold handleApprove. rewrite Hconn, Hfind, Hwrite. cbn [negb fst].
  change (Some (getFriendlyErrorMessage err) = Some AI_SERVICE_FAILED). f_equal.
  assert (Hcreds : Session.supabaseUrl s = "" \/ Session.supabaseAnonKey s = "" ->
            err = Error "Supabase URL and Anon Key are required.").
  { intros Hempty.
    pose proof (addApprovedMeme_without_credentials be memeToApprove _ _ Hempty) as Hout.
    rewrite Hwrite in Hout. by injection Hout as _ <-. }
  destruct Hcase as [Hu|[Hk|(filePath & imageBlob & ->)]].
  - by rewrite Hcreds by auto.
  - by rewrite Hcreds by auto.
  - pose proof (addApprovedMeme_outcome be memeToApprove (Session.supabaseUrl s)
                  (Session.supabaseAnonKey s)) as Hout.
    rewrite Hwrite in Hout. simpl in Hout.
    inversion Hout as [|client filePath' imageBlob' message Hc Hup| |]; subst.
    pose proof (uploadFailure_cases message) as Hin.
    rewrite !elem_of_cons in Hin.
    destruct Hin as [->|[->|[->|?%elem_of_nil]]]; done.
Qed.

(** The bucket is missing: the operator reads about a failed AI service. *)
Lemma refused_upload_shows_ai_message_runs :
  Session.error
    (handleApprove (sampleBackend (Some "Bucket not found") None) "id-1" sampleSession).1
  = Some AI_SERVICE_FAILED.
Proof.
  apply (refused_upload_shows_ai_message
           (sampleBackend (Some "Bucket not found") None) "id-1" sampleSession
           (sampleMeme "id-1" pending)
           [Upload "public/id-1.png"
              {| blob_bytes := "iVBORw0KGgo"; blob_type := "image/png" |}]
           UPLOAD_BUCKET_NOT_FOUND eq_refl eq_refl eq_refl).
  right. right. by eexists _, _.
Defined.

(** ** Status changes *)

Lemma content_setStatus id status meme : content (setStatus id status meme) = content meme.
Proof. unfold setStatus. by case_decide. Qed.

Lemma content_handleStatusChange id status s :
  content <$> Session.memes (handleStatusChange id status s) = content <$> Session.memes s.
Proof.
  change (content <$> (setStatus id status <$> Session.memes s) = content <$> Session.memes s).
  rewrite <-list_fmap_compose. apply list_fmap_ext. intros _ meme _. apply content_setStatus.
Qed.

(** X8 — Approving and rejecting change nothing of a meme but its status:
    after [handleReject] and after [handleApprove], whatever the store
    answers, the session holds the same memes in the same order with the
    same ids, texts, prompts, images, alt texts and models. *)
Theorem status_handlers_keep_content :
  forall be id s,
    content <$> Session.memes (handleReject id s) = content <$> Session.memes s /\
    content <$> Session.memes (handleApprove be id s).1 = content <$> Session.memes s /\
    length (Session.memes (handleApprove be id s).1) = length (Session.memes s).
Proof.
  intros be id s.
  assert (Happrove : content <$> Session.memes (handleApprove be id s).1
                     = content <$> Session.memes s).
  { unfold handleApprove.
    destruct (Session.isSupabaseConnected s); cbn [negb]; [|done].
    destruct (List.find _ (Session.memes s)) as [memeToApprove|]; [|done].
    destruct (addApprovedMeme be memeToApprove _ _) as [calls [[]|err]]; cbn [fst].
    - apply content_handleStatusChange.
    - rewrite reverted_memes.
      rewrite <-list_fmap_compose. apply list_fmap_ext. intros _ meme _.
      apply content_setStatus. }
  split; [apply content_handleStatusChange|]. split; [done|].
  apply (f_equal length) in Happrove. by rewrite !length_fmap in Happrove.
Qed.

(** X9 — [handleApprove] reaches the store only from a connected session and
    only for a meme the session holds under that id; what it sends is what
    [addApprovedMeme] sends for that meme as it stood before the approval.
    With no meme of that id, a connected session stays as it is. *)
Theorem approval_reaches_store_for_held_meme :
  forall be id s,
    ((handleApprove be id s).2 <> [] ->
     Session.isSupabaseConnected s = true /\
     exists memeToApprove,
       memeToApprove ∈ Session.memes s /\ GeneratedMeme.id memeToApprove = id /\
       (handleApprove be id s).2 =
         (addApprovedMeme be memeToApprove (Session.supabaseUrl s)
            (Session.supabaseAnonKey s)).1) /\
    (Session.isSupabaseConnected s = true ->
     (forall meme, meme ∈ Session.memes s -> GeneratedMeme.id meme <> id) ->
     handleApprove be id s = (s, [])).
Proof.
  intros be id s. unfold handleApprove. split.
  - destruct (Session.isSupabaseConnected s); cbn [negb]; [|done].
    destruct (List.find _ (Session.memes s)) as [memeToApprove|] eqn:Hfind; [|done].
    destruct (find_by_id _ _ _ Hfind) as [Hin Hid].
    intros _. split; [done|]. exists memeToApprove. split; [done|]. split; [done|].
    by destruct (addApprovedMeme be memeToApprove _ _) as [calls [[]|err]].
  - intros -> Hnone. cbn [negb].
    destruct (List.find _ (Session.memes s)) as [memeToApprove|] eqn:Hfind; [|done].
    destruct (find_by_id _ _ _ Hfind) as [Hin Hid]. by destruct (Hnone _ Hin).
Qed.

(** X10 — When the write succeeds, every meme of that id is approved, the
    other memes keep their status, and the error the session showed before
    stays as it was. *)
Theorem successful_write_approves :
  forall be id s memeToApprove calls,
    Session.isSupabaseConnected s = true ->
    List.find (fun meme => bool_decide (GeneratedMeme.id meme = id)) (Session.memes s)
      = Some memeToApprove ->
    addApprovedMeme be memeToApprove (Session.supabaseUrl s) (Session.supabaseAnonKey s)
      = (calls, Ret ()) ->
    let after := (handleApprove be id s).1 in
    Session.memes after = List.map (setStatus id approved) (Session.memes s) /\
    (forall meme, meme ∈ Session.memes after -> GeneratedMeme.id meme = id ->
       GeneratedMeme.status meme = approved) /\
    (forall i meme, Session.memes s !! i = Some meme -> GeneratedMeme.id meme <> id ->
       Session.memes after !! i = Some meme) /\
    Session.error after = Session.error s.
Proof.
  intros be id s memeToApprove calls Hconn Hfind Hwrite after. subst after.
  unfold handleApprove. rewrite Hconn, Hfind, Hwrite. cbn [negb fst].
  change (Session.memes (handleStatusChange id approved s))
    with (setStatus id approved <$> Session.memes s).
  split; [done|]. split; [|split; [|done]].
  - intros meme (m & -> & _)%list_elem_of_fmap.
    rewrite setStatus_id, setStatus_status. intros ->. by rewrite decide_True.
  - intros i meme Hi Hid. rewrite list_lookup_fmap, Hi. simpl.
    unfold setStatus. by rewrite decide_False.
Qed.

(** Both memes of the sample session, the first one approved. *)
Lemma successful_write_approves_runs :
  Session.memes (handleApprove (sampleBackend None None) "id-1" sampleSession).1 =
    [sampleMeme "id-1" approved; sampleMeme "id-2" rejected].
Proof.
  exact (proj1 (successful_write_approves (sampleBackend None None) "id-1" sampleSession
                  (sampleMeme "id-1" pending) _ eq_refl eq_refl eq_refl)).
Defined.

(** ** The notice for visitors *)

Lemma filter_nil_iff {A} (f : A -> bool) (l : list A) :
  List.filter f l = [] <-> forall x, x ∈ l -> f x = false.
Proof.
  induction l as [|y l IH]; cbn [List.filter].
  - split; [by intros _ x ?%elem_of_nil | done].
  - destruct (f y) eqn:Hy.
    + split; [done|]. intros Hall. specialize (Hall y). rewrite Hy in Hall.
      discriminate Hall. by left.
    + rewrite IH. split.
      * intros Hall x [->|Hin]%elem_of_cons; [done|by apply Hall].
      * intros Hall x Hin. apply Hall. by right.
Qed.

(** X11 — The page builds a card for every meme of the session, whatever
    its status and whoever looks, unless a generation is loading.  The
    notice "Nothing to see here... yet!" shows exactly when nothing is
    loading, nobody is logged in and no meme of the session is approved: it
    is decided by the approved memes, not by the cards, so a logged-out
    page whose memes are all pending or rejected shows the notice next to
    their cards. *)
Theorem nothing_to_see_notice :
  forall a,
    let memes := Session.memes (App.session a) in
    (Session.isLoading (App.session a) = false -> memeCards a = memes) /\
    (Session.isLoading (App.session a) = true -> memeCards a = []) /\
    (nothingToSeeShown a = true <->
     Session.isLoading (App.session a) = false /\
     App.isLoggedIn a = false /\
     forall meme, meme ∈ memes -> GeneratedMeme.status meme <> approved) /\
    (nothingToSeeShown a = true -> memeCards a = memes) /\
    (App.isLoggedIn a = true -> nothingToSeeShown a = false).
Proof.
  intros a memes. subst memes.
  assert (Hnotice :
    nothingToSeeShown a = true <->
    Session.isLoading (App.session a) = false /\
    App.isLoggedIn a = false /\
    forall meme, meme ∈ Session.memes (App.session a) ->
                 GeneratedMeme.status meme <> approved).
  { unfold nothingToSeeShown, displayedMemes.
    destruct (Session.isLoading (App.session a)); cbn [negb andb];
      [split; [done|by intros [? _]]|].
    destruct (App.isLoggedIn a); cbn [negb];
      [rewrite andb_false_r; split; [done|by intros (_ & ? & _)]|].
    rewrite andb_true_r, Nat.eqb_eq, length_zero_iff_nil, filter_nil_iff.
    split.
    - intros Hall. repeat split. intros meme Hin.
      by apply (bool_decide_eq_false (GeneratedMeme.status meme = approved)), Hall.
    - intros (_ & _ & Hall) meme Hin.
      by apply (bool_decide_eq_false (GeneratedMeme.status meme = approved)), Hall. }
  assert (Hcards : Session.isLoading (App.session a) = false ->
                   memeCards a = Session.memes (App.session a)).
  { unfold memeCards. intros ->. cbn [negb andb].
    by destruct (Session.memes (App.session a)). }
  split; [exact Hcards|split; [|split; [exact Hnotice|split]]].
  - unfold memeCards. by intros ->.
  - intros (Hidle & _ & _)%Hnotice. by apply Hcards.
  - intros Hin. unfold nothingToSeeShown. rewrite Hin. cbn [negb]. apply andb_false_r.
Qed.

(** ** A generation request *)

(** A batch that is assembled is not empty and is all pending. *)
Lemma processConcepts_pending rt conceptsPromise p key memes :
  processConceptsIntoMemes rt conceptsPromise p key = Ret memes ->
  memes <> [] /\ forall meme, meme ∈ memes -> GeneratedMeme.status meme = pending.
Proof.
  destruct conceptsPromise as [[concepts|]|e]; try done.
  destruct (decide (concepts = [])) as [->|Hne]; [done|].
  intros Hret. destruct (processConcepts_Ret _ _ _ _ _ Hne Hret) as [Hlen Hat]. split.
  - intros ->. by destruct concepts.
  - intros meme [i Hi]%list_elem_of_lookup.
    destruct (Hat i meme Hi) as (c & _ & Hp).
    by apply memePromise_Ret in Hp as (_ & ? & _).
Qed.



(** ** Blank inputs *)

Lemma trimStart_head s :
  Js.trimStart s = "" \/
  exists c rest, Js.trimStart s = String c rest /\ Js.isSpace c = false.
Proof.
  induction s as [|c s IH]; [by left|]. simpl.
  destruct (Js.isSpace c) eqn:Hc; [done|]. right. by exists c, s.
Qed.

Lemma trimStart_blank s : Js.trimStart s = "" <-> allSpaces s = true.
Proof.
  induction s as [|c s IH]; [done|]. simpl.
  destruct (Js.isSpace c); [done|]. split; done.
Qed.

Lemma trimEnd_blank s : Js.trimEnd s = "" <-> allSpaces s = true.
Proof.
  induction s as [|c s IH]; [done|]. simpl.
  destruct (Js.trimEnd s) as [|d t].
  - destruct (Js.isSpace c); simpl; [|done]. by rewrite <-IH.
  - split; [done|]. intros [_ Hs]%andb_true_iff. by apply IH in Hs.
Qed.

(** [s.trim()] is empty exactly for a string of white space. *)
Lemma trim_blank s : Js.falsy (Js.trim s) = allSpaces s.
Proof.
  unfold Js.trim. destruct (allSpaces s) eqn:Hs.
  - apply trimStart_blank in Hs as ->. done.
  - destruct (Js.trimEnd (Js.trimStart s)) as [|c t] eqn:Ht; [|done].
    apply trimEnd_blank in Ht.
    destruct (trimStart_head s) as [H0|(c & rest & Hc & Hsp)].
    + apply trimStart_blank in H0. congruence.
    + rewrite Hc in Ht. simpl in Ht. by rewrite Hsp in Ht.
Qed.

(** X13 — A headline of white space only starts no generation: the session
    stays as it is; any other headline starts the headline generation.  The
    inspiration form starts its generation exactly when neither the prompt
    nor the links are white space only. *)
Theorem blank_inputs_start_nothing :
  forall be rt concepts s,
    handleGenerateFromHeadline be rt concepts s =
      (if allSpaces (Session.headline s) then s
       else runMemeGeneration be rt concepts headlineGenerator s) /\
    handleGenerateFromInspiration be rt concepts s =
      (if allSpaces (Session.customPrompt s) || allSpaces (Session.instagramLinks s) then s
       else runMemeGeneration be rt concepts inspirationGenerator s).
Proof.
  intros. unfold handleGenerateFromHeadline, handleGenerateFromInspiration.
  by rewrite !trim_blank.
Qed.

(** X14 — The autopilot is switched on only from a connected session whose
    autopilot prompt and links both hold more than white space, and the
    error is then cleared; a refused switch leaves it off and sets an
    error; switching it off is always possible. *)
Theorem autopilot_toggle_is_guarded :
  forall a,
    let after := handleToggleAutopilot a in
    (App.isAutopilotOn after = true <->
     App.isAutopilotOn a = false /\
     Session.isSupabaseConnected (App.session a) = true /\
     allSpaces (App.autopilotPrompt a) = false /\
     allSpaces (App.autopilotLinks a) = false) /\
    (App.isAutopilotOn after = true -> Session.error (App.session after) = None) /\
    (App.isAutopilotOn a = false -> App.isAutopilotOn after = false ->
     Session.error (App.session after) <> None) /\
    (App.isAutopilotOn a = true ->
     App.isAutopilotOn after = false /\ Session.error (App.session after) = None) /\
    Session.memes (App.session after) = Session.memes (App.session a).
Proof.
  intros a after. subst after. unfold handleToggleAutopilot. rewrite !trim_blank.
  destruct (App.isAutopilotOn a) eqn:Hon,
           (Session.isSupabaseConnected (App.session a)) eqn:Hconn,
           (allSpaces (App.autopilotPrompt a)) eqn:Hp,
           (allSpaces (App.autopilotLinks a)) eqn:Hl; cbn; rewrite ?Hon; cbn.
  all: repeat split; try done; try (intros (? & ? & ? & ?); done).
Qed.

(** ** Regeneration *)

Lemma regenerated_keeps id img alt model meme :
  GeneratedMeme.id (regenerated id img alt model meme) = GeneratedMeme.id meme /\
  GeneratedMeme.concept (regenerated id img alt model meme) = GeneratedMeme.concept meme.
Proof. unfold regenerated. by case_decide. Qed.

Lemma handleRegenerate_unfold w id a memeToRegenerate :
  inFlight (App.regeneratingMemeId a) = false ->
  List.find (fun m => bool_decide (GeneratedMeme.id m = id)) (Session.memes (App.session a))
    = Some memeToRegenerate ->
  handleRegenerate w id a =
  App.setRegeneratingMemeId None
    match generateMemeImageWithFallback w (GeneratedMeme.imagePrompt memeToRegenerate)
            (GeneratedMeme.modelUsed memeToRegenerate)
            (Session.openAiApiKey (App.session a)),
          generateImageAltText w (GeneratedMeme.concept memeToRegenerate) with
    | Ret r, Ret newAltText =>
        App.setSession
          (Session.setMemes
             (List.map (regenerated id (ImageResult.imageUrl r) newAltText
                          (ImageResult.modelUsed r))))
          (App.setSession (Session.setError None) (App.setRegeneratingMemeId (Some id) a))
    | Throw err, _ | _, Throw err =>
        App.setSession (Session.setError (Some (getFriendlyErrorMessage err)))
          (App.setSession (Session.setError None) (App.setRegeneratingMemeId (Some id) a))
    end.
Proof.
  intros Hfree Hfind. unfold handleRegenerate. rewrite Hfree, Hfind.
  destruct (generateMemeImageWithFallback _ _ _ _) as [r|err]; [|done].
  cbn [mbind Res_bind bind].
  by destruct (generateImageAltText _ _) as [alt|err].
Qed.

(** X15 — [handleRegenerate] does nothing while a regeneration is in flight
    and nothing for an id no meme has.  Otherwise it ends with no
    regeneration in flight and with the same memes in the same order under
    the same ids, texts and prompts, and either the image synthesis answered
    and every meme of that id is pending with the new image, the new alt
    text and the model the wrapper reports, the others untouched and the
    error cleared, or the OpenAI path rejected, for a meme made by dalle
    with a key present, and the memes are as before with an error shown. *)
Theorem regeneration_outcomes :
  forall w id a,
    let after := handleRegenerate w id a in
    (inFlight (App.regeneratingMemeId a) = true -> after = a) /\
    ((forall meme, meme ∈ Session.memes (App.session a) -> GeneratedMeme.id meme <> id) ->
     after = a) /\
    ((fun meme => (GeneratedMeme.id meme, GeneratedMeme.concept meme))
       <$> Session.memes (App.session after) =
     (fun meme => (GeneratedMeme.id meme, GeneratedMeme.concept meme))
       <$> Session.memes (App.session a)) /\
    (forall memeToRegenerate,
       inFlight (App.regeneratingMemeId a) = false ->
       List.find (fun m => bool_decide (GeneratedMeme.id m = id))
         (Session.memes (App.session a)) = Some memeToRegenerate ->
       App.regeneratingMemeId after = None /\
       ((exists r newAltText,
           generateMemeImageWithFallback w (GeneratedMeme.imagePrompt memeToRegenerate)
             (GeneratedMeme.modelUsed memeToRegenerate)
             (Session.openAiApiKey (App.session a)) = Ret r /\
           generateImageAltText w (GeneratedMeme.concept memeToRegenerate) = Ret newAltText /\
           Session.memes (App.session after) =
             regenerated id (ImageResult.imageUrl r) newAltText (ImageResult.modelUsed r)
               <$> Session.memes (App.session a) /\
           Session.error (App.session after) = None) \/
        (exists err,
           GeneratedMeme.modelUsed memeToRegenerate = dalle /\
           Session.openAiApiKey (App.session a) <> "" /\
           generateImageWithDalle w (GeneratedMeme.imagePrompt memeToRegenerate)
             (Session.openAiApiKey (App.session a)) = Throw err /\
           Session.memes (App.session after) = Session.memes (App.session a) /\
           Session.error (App.session after) = Some (getFriendlyErrorMessage err)))).
Proof.
  intros w id a after. subst after.
  assert (Hguard1 : inFlight (App.regeneratingMemeId a) = true -> handleRegenerate w id a = a).
  { intros H. unfold handleRegenerate. by rewrite H. }
  assert (Hguard2 : (forall meme, meme ∈ Session.memes (App.session a) ->
                       GeneratedMeme.id meme <> id) -> handleRegenerate w id a = a).
  { intros Hnone. unfold handleRegenerate.
    destruct (inFlight _); [done|].
    destruct (List.find _ _) as [m|] eqn:Hfind; [|done].
    destruct (find_by_id _ _ _ Hfind) as [Hin Hid]. by destruct (Hnone _ Hin). }
  assert (Hran : forall memeToRegenerate,
    inFlight (App.regeneratingMemeId a) = false ->
    List.find (fun m => bool_decide (GeneratedMeme.id m = id))
      (Session.memes (App.session a)) = Some memeToRegenerate ->
    App.regeneratingMemeId (handleRegenerate w id a) = None /\
    ((exists r newAltText,
        generateMemeImageWithFallback w (GeneratedMeme.imagePrompt memeToRegenerate)
          (GeneratedMeme.modelUsed memeToRegenerate)
          (Session.openAiApiKey (App.session a)) = Ret r /\
        generateImageAltText w (GeneratedMeme.concept memeToRegenerate) = Ret newAltText /\
        Session.memes (App.session (handleRegenerate w id a)) =
          regenerated id (ImageResult.imageUrl r) newAltText (ImageResult.modelUsed r)
            <$> Session.memes (App.session a) /\
        Session.error (App.session (handleRegenerate w id a)) = None) \/
     (exists err,
        GeneratedMeme.modelUsed memeToRegenerate = dalle /\
        Session.openAiApiKey (App.session a) <> "" /\
        generateImageWithDalle w (GeneratedMeme.imagePrompt memeToRegenerate)
          (Session.openAiApiKey (App.session a)) = Throw err /\
        Session.memes (App.session (handleRegenerate w id a)) = Session.memes (App.session a) /\
        Session.error (App.session (handleRegenerate w id a))
          = Some (getFriendlyErrorMessage err)))).
  { intros m Hfree Hfind. rewrite (handleRegenerate_unfold w id a m Hfree Hfind).
    destruct (generateImageAltText_returns w (GeneratedMeme.concept m)) as [alt Halt].
    rewrite Halt.
    destruct (generateMemeImageWithFallback _ _ _ _) as [r|err] eqn:Hr.
    - split; [done|]. left. by exists r, alt.
    - split; [done|]. right. exists err.
      rewrite fallback_unfold in Hr.
      destruct (generateImage_returns w (GeneratedMeme.imagePrompt m)) as [img Himg].
      destruct (GeneratedMeme.modelUsed m), (Session.openAiApiKey (App.session a)) as [|c k];
        rewrite ?Himg in Hr; try done.
      destruct (generateImageWithDalle _ _ _) as [img'|err'] eqn:Hd; [done|].
      simpl in Hr. injection Hr as ->. done. }
  split; [done|]. split; [done|]. split; [|done].
  destruct (inFlight (App.regeneratingMemeId a)) eqn:Hfree; [by rewrite Hguard1|].
  destruct (List.find (fun m => bool_decide (GeneratedMeme.id m = id))
              (Session.memes (App.session a))) as [m|] eqn:Hfind.
  - destruct (Hran m eq_refl eq_refl) as [_ [(r & alt & _ & _ & -> & _)|(err & _ & _ & _ & -> & _)]];
      [|done].
    rewrite <-list_fmap_compose. apply list_fmap_ext. intros _ meme _. simpl.
    by destruct (regenerated_keeps id (ImageResult.imageUrl r) alt (ImageResult.modelUsed r) meme)
      as [-> ->].
  - rewrite Hguard2; [done|]. intros meme Hin. by apply (find_by_id_None _ _ _ Hfind).
Qed.

(** X16 — Regenerating a meme made by gemini, or any meme while the OpenAI
    key is empty, always succeeds: the Gemini path makes the new image, the
    error is cleared, and every meme of that id ends pending and made by
    gemini, also one that dalle had made. *)
Theorem regeneration_by_gemini_succeeds :
  forall w id a memeToRegenerate,
    inFlight (App.regeneratingMemeId a) = false ->
    List.find (fun m => bool_decide (GeneratedMeme.id m = id))
      (Session.memes (App.session a)) = Some memeToRegenerate ->
    GeneratedMeme.modelUsed memeToRegenerate = gemini \/
    Session.openAiApiKey (App.session a) = "" ->
    let after := handleRegenerate w id a in
    exists newImageUrl newAltText,
      generateImage w (GeneratedMeme.imagePrompt memeToRegenerate) = Ret newImageUrl /\
      generateImageAltText w (GeneratedMeme.concept memeToRegenerate) = Ret newAltText /\
      Session.error (App.session after) = None /\
      forall meme, meme ∈ Session.memes (App.session after) -> GeneratedMeme.id meme = id ->
        GeneratedMeme.status meme = pending /\
        GeneratedMeme.modelUsed meme = gemini /\
        GeneratedMeme.imageUrl meme = newImageUrl /\
        GeneratedMeme.altText meme = newAltText.
Proof.
  intros w id a m Hfree Hfind Hcase after. subst after.
  rewrite (handleRegenerate_unfold w id a m Hfree Hfind).
  destruct (generateImage_returns w (GeneratedMeme.imagePrompt m)) as [img Himg].
  destruct (generateImageAltText_returns w (GeneratedMeme.concept m)) as [alt Halt].
  exists img, alt. split; [done|]. split; [done|].
  assert (generateMemeImageWithFallback w (GeneratedMeme.imagePrompt m)
            (GeneratedMeme.modelUsed m) (Session.openAiApiKey (App.session a))
          = Ret (ImageResult.mk img gemini)) as ->.
  { rewrite fallback_unfold.
    destruct Hcase as [-> | ->]; [|destruct (GeneratedMeme.modelUsed m)];
      rewrite Himg; try done. }
  rewrite Halt. split; [done|].
  intros meme. cbn. intros (m0 & -> & _)%list_elem_of_fmap.
  unfold regenerated. case_decide; [done|]. by intros ?.
Qed.

(** A meme that dalle made, regenerated without a key. *)
Lemma regeneration_by_gemini_succeeds_runs :
  exists newImageUrl newAltText,
    generateImage workingServices "prompt" = Ret newImageUrl /\
    generateImageAltText workingServices
      (GeneratedMeme.concept (sampleMeme "id-1" approved)) = Ret newAltText /\
    Session.error
      (App.session
         (handleRegenerate workingServices "id-1"
            (sampleApp "" [sampleMeme "id-1" approved]))) = None /\
    forall meme,
      meme ∈ Session.memes
               (App.session
                  (handleRegenerate workingServices "id-1"
                     (sampleApp "" [sampleMeme "id-1" approved]))) ->
      GeneratedMeme.id meme = "id-1" ->
      GeneratedMeme.status meme = pending /\
      GeneratedMeme.modelUsed meme = gemini /\
      GeneratedMeme.imageUrl meme = newImageUrl /\
      GeneratedMeme.altText meme = newAltText.
Proof.
  apply (regeneration_by_gemini_succeeds workingServices "id-1"
           (sampleApp "" [sampleMeme "id-1" approved])
           (sampleMeme "id-1" approved) eq_refl eq_refl).
  by right.
Defined.

(** ** The autopilot *)

Lemma generateMemesFromInspiration_pending
    be rt concepts links customPrompt examples key url anon memes :
  generateMemesFromInspiration be rt concepts links customPrompt examples key url anon
    = Ret memes ->
  memes <> [] /\ forall meme, meme ∈ memes -> GeneratedMeme.status meme = pending.
Proof.
  unfold generateMemesFromInspiration.
  destruct (getModelPreference_returns be url anon) as [p ->].
  apply processConcepts_pending.
Qed.

Lemma pending_memes_pass_filter memes :
  (forall meme, meme ∈ memes -> GeneratedMeme.status meme = pending) ->
  List.filter (fun m => negb (bool_decide (GeneratedMeme.status m = rejected))) memes = memes.
Proof.
  induction memes as [|m memes IH]; [done|]. intros Hall.
  cbn. rewrite (Hall m) by (by left). cbn. f_equal.
  apply IH. intros meme Hin. apply Hall. by right.
Qed.

(** What one run of the task does, by cases. *)
Lemma runAutopilotTask_cases be rt concepts now a lastRunDate :
  let s := App.session a in
  let generated :=
    examples ← getApprovedMemes be (Session.supabaseUrl s) (Session.supabaseAnonKey s);
    generateMemesFromInspiration be rt concepts (App.autopilotLinks a)
      (App.autopilotPrompt a) examples (Session.openAiApiKey s)
      (Session.supabaseUrl s) (Session.supabaseAnonKey s) in
  runAutopilotTask be rt concepts now a lastRunDate =
  if (getHours now =? 8)%nat && negb (bool_decide (lastRunDate = Some (today now))) &&
     Session.isSupabaseConnected s
  then (Some (today now),
        match generated with
        | Ret memes =>
            [(sendApprovalEmail memes "admin@kissmyfacenewyork.com"
                ("KMFNY Autopilot Memes: " +:+ today now)).1]
        | Throw _ => []
        end)
  else (lastRunDate, []).
Proof.
  intros s generated. subst s generated. unfold runAutopilotTask.
  destruct (_ && _ && _); [|done]. f_equal.
  destruct (getApprovedMemes_returns be (Session.supabaseUrl (App.session a))
              (Session.supabaseAnonKey (App.session a))) as [examples ->].
  cbn [mbind Res_bind bind].
  destruct (generateMemesFromInspiration _ _ _ _ _ _ _ _ _) as [memes|err] eqn:Hgen; [|done].
  destruct (generateMemesFromInspiration_pending _ _ _ _ _ _ _ _ _ _ Hgen) as [Hne Hall].
  cbn [mbind Res_bind bind]. rewrite (pending_memes_pass_filter _ Hall).
  by destruct memes.
Qed.

(** X17 — An autopilot run sends a mail exactly when it is 8 o'clock, the
    session is connected, the stored date of the last run is not today and
    the batch is assembled.  The mail goes to the admin address under the
    subject of the day and lists every meme of the batch, each pending: no
    meme is filtered out, and the branch for a batch without usable memes is
    never taken. *)
Theorem autopilot_mails_whole_batch :
  forall be rt concepts now a lastRunDate mail,
    mail ∈ (runAutopilotTask be rt concepts now a lastRunDate).2 ->
    let s := App.session a in
    getHours now = 8 /\
    Session.isSupabaseConnected s = true /\
    lastRunDate <> Some (today now) /\
    (runAutopilotTask be rt concepts now a lastRunDate).2 = [mail] /\
    recipient mail = "admin@kissmyfacenewyork.com" /\
    subject mail = "KMFNY Autopilot Memes: " +:+ today now /\
    exists examples memes,
      getApprovedMemes be (Session.supabaseUrl s) (Session.supabaseAnonKey s)
        = Ret examples /\
      generateMemesFromInspiration be rt concepts (App.autopilotLinks a)
        (App.autopilotPrompt a) examples (Session.openAiApiKey s)
        (Session.supabaseUrl s) (Session.supabaseAnonKey s) = Ret memes /\
      item_id <$> emailContent mail = GeneratedMeme.id <$> memes /\
      forall item, item ∈ emailContent mail -> item_status item = pending.
Proof.
  intros be rt concepts now a lastRunDate mail. rewrite runAutopilotTask_cases.
  destruct (getHours now =? 8)%nat eqn:Hhour; cbn [andb];
    [|by intros ?%elem_of_nil].
  destruct (bool_decide (lastRunDate = Some (today now))) eqn:Hlast; cbn [andb negb];
    [by intros ?%elem_of_nil|].
  destruct (Session.isSupabaseConnected (App.session a)) eqn:Hconn;
    [|by intros ?%elem_of_nil].
  destruct (getApprovedMemes_returns be (Session.supabaseUrl (App.session a))
              (Session.supabaseAnonKey (App.session a))) as [examples Hex].
  rewrite Hex. cbn [mbind Res_bind bind snd].
  destruct (generateMemesFromInspiration _ _ _ _ _ _ _ _ _) as [memes|err] eqn:Hgen;
    [|by intros ?%elem_of_nil].
  intros [->|?%elem_of_nil]%elem_of_cons; [|done]. cbv zeta.
  split; [by apply Nat.eqb_eq|]. split; [done|].
  split; [by apply bool_decide_eq_false in Hlast|].
  split; [done|]. split; [done|]. split; [done|].
  exists examples, memes. split; [done|]. split; [done|].
  destruct (generateMemesFromInspiration_pending _ _ _ _ _ _ _ _ _ _ Hgen) as [_ Hall].
  split.
  - cbn. rewrite <-list_fmap_compose. done.
  - cbn. intros item (m & -> & Hin)%list_elem_of_fmap. cbn. by apply Hall.
Qed.

(** The mail of the sample morning. *)
Lemma autopilot_mails_whole_batch_runs :
  match sampleAutopilotMails with
  | [mail] =>
      subject mail = "KMFNY Autopilot Memes: 2026-03-01" /\
      recipient mail = "admin@kissmyfacenewyork.com" /\
      length (emailContent mail) = 5
  | _ => False
  end.
Proof.
  lazymatch eval unfold sampleAutopilotMails in sampleAutopilotMails with
  | [?m] =>
      destruct (autopilot_mails_whole_batch (sampleBackend None None) workingRuntime
                  sampleConceptService sampleMorning (sampleApp "sk-1" []) None m)
        as (_ & _ & _ & _ & Hto & Hsubject & _);
        [apply list_elem_of_here|]
  end.
  split; [exact Hsubject|]. split; [exact Hto|]. reflexivity.
Defined.

Lemma autopilotTick_cases t lastRunDate :
  (autopilotTick t lastRunDate = (lastRunDate, [])) \/
  ((autopilotTick t lastRunDate).1 = Some (today (tick_now t)) /\
   lastRunDate <> Some (today (tick_now t)) /\
   length (autopilotTick t lastRunDate).2 <= 1).
Proof.
  unfold autopilotTick. destruct (App.isAutopilotOn (tick_app t)); [|by left].
  rewrite runAutopilotTask_cases.
  destruct (bool_decide (lastRunDate = Some (today (tick_now t)))) eqn:Hlast.
  { left. by rewrite andb_false_r. }
  destruct (_ && _ && _); [|by left]. right.
  split; [done|]. split; [by apply bool_decide_eq_false in Hlast|].
  cbn [snd]. destruct (_ ≫= _); cbn; lia.
Qed.

Lemma autopilotTicks_after_run ticks day :
  (forall t, t ∈ ticks -> today (tick_now t) = day) ->
  autopilotTicks ticks (Some day) = (Some day, []).
Proof.
  induction ticks as [|t ticks IH]; [done|]. intros Hday. cbn [autopilotTicks].
  destruct (autopilotTick_cases t (Some day)) as [->|(_ & Hne & _)].
  - rewrite IH; [done|]. intros t' Hin. apply Hday. by right.
  - rewrite (Hday t) in Hne by (by left). done.
Qed.

(** X18 — Over any sequence of firings of the autopilot that fall on one
    day, at most one mail is sent.  Once a firing has run the task, the
    later firings of that day do nothing, also when that run sent no mail
    because its batch failed: a failed run is not tried again that day. *)
Theorem autopilot_runs_once_a_day :
  forall ticks day lastRunDate,
    (forall t, t ∈ ticks -> today (tick_now t) = day) ->
    length (autopilotTicks ticks lastRunDate).2 <= 1 /\
    (forall t rest,
       ticks = t :: rest ->
       (autopilotTick t lastRunDate).1 <> lastRunDate ->
       autopilotTicks ticks lastRunDate = (Some day, (autopilotTick t lastRunDate).2)).
Proof.
  intros ticks day lastRunDate Hday. split.
  - revert lastRunDate. induction ticks as [|t ticks IH]; intros lastRunDate; [cbn; lia|].
    cbn [autopilotTicks].
    assert (Hrest : forall t', t' ∈ ticks -> today (tick_now t') = day).
    { intros t' Hin. apply Hday. by right. }
    destruct (autopilotTick_cases t lastRunDate) as [->|(Hst & _ & Hlen)].
    + specialize (IH Hrest lastRunDate).
      destruct (autopilotTicks ticks lastRunDate) as [st mails]. exact IH.
    + destruct (autopilotTick t lastRunDate) as [st mails]. cbn [fst snd] in *.
      rewrite Hst, (Hday t) by (by left).
      rewrite (autopilotTicks_after_run ticks day Hrest). cbn [snd].
      by rewrite app_nil_r.
  - intros t rest -> Hran. cbn [autopilotTicks].
    destruct (autopilotTick_cases t lastRunDate) as [Hidle|(Hst & _ & _)].
    + rewrite Hidle in Hran. done.
    + destruct (autopilotTick t lastRunDate) as [st mails]. cbn [fst snd] in *.
      rewrite Hst, (Hday t) by (by left).
      rewrite autopilotTicks_after_run; [by rewrite app_nil_r|].
      intros t' Hin. apply Hday. by right.
Qed.

(** Three firings on the sample morning: one mail. *)
Lemma autopilot_runs_once_a_day_runs :
  length
    (autopilotTicks
       [sampleTick {| getHours := 7; toISOString := "2026-03-01T12:55:00.000Z" |};
        sampleTick sampleMorning;
        sampleTick {| getHours := 8; toISOString := "2026-03-01T13:05:00.000Z" |}]
       (Some "2026-02-28")).2 <= 1.
Proof.
  apply (proj1 (autopilot_runs_once_a_day
                  [sampleTick {| getHours := 7; toISOString := "2026-03-01T12:55:00.000Z" |};
                   sampleTick sampleMorning;
                   sampleTick {| getHours := 8; toISOString := "2026-03-01T13:05:00.000Z" |}]
                  "2026-03-01" (Some "2026-02-28")
                  ltac:(intros t Hin;
                        repeat (apply elem_of_cons in Hin as [->|Hin]; [reflexivity|]);
                        by apply elem_of_nil in Hin))).
Defined.

(** ** The connection test *)

Lemma verifySupabaseConnection_cases pr url key :
  verifySupabaseConnection pr url key =
  Ret
    (if Js.falsy url || Js.falsy key
     then ConnectionResult.mk false "Supabase URL and Anon Key are required."
     else
       let client := {| client_url := url; client_key := key |} in
       match probe_createClient_throws pr url key,
             probe_table pr client, probe_bucket pr client with
       | Some e, _, _ =>
           match e with
           | Error message => ConnectionResult.mk false message
           | NonError =>
               ConnectionResult.mk false
                 "An unknown error occurred during the connection test."
           end
       | None, TableProbeRejects e, _ =>
           match e with
           | Error message => ConnectionResult.mk false message
           | NonError =>
               ConnectionResult.mk false
                 "An unknown error occurred during the connection test."
           end
       | None, TableProbeError message, _ =>
           match tableFailure message with
           | Error m => ConnectionResult.mk false m
           | NonError =>
               ConnectionResult.mk false
                 "An unknown error occurred during the connection test."
           end
       | None, TableProbeOk, BucketProbeRejects e =>
           match e with
           | Error message => ConnectionResult.mk false message
           | NonError =>
               ConnectionResult.mk false
                 "An unknown error occurred during the connection test."
           end
       | None, TableProbeOk, BucketProbeError bucketError =>
           match bucketFailure bucketError with
           | Error m => ConnectionResult.mk false m
           | NonError =>
               ConnectionResult.mk false
                 "An unknown error occurred during the connection test."
           end
       | None, TableProbeOk, BucketProbeData false =>
           ConnectionResult.mk false BUCKET_NOT_PUBLIC
       | None, TableProbeOk, BucketProbeData true =>
           ConnectionResult.mk true CONNECTION_OK
       end).
Proof.
  unfold verifySupabaseConnection, getSupabaseClient, createClient.
  destruct (Js.falsy url || Js.falsy key); [done|].
  destruct (probe_createClient_throws pr url key) as [[m|]|]; [done|done|].
  cbn [mbind Res_bind bind].
  destruct (probe_table pr _) as [[m|]|message|]; cbn; try done.
  - by destruct (tableFailure message).
  - destruct (probe_bucket pr _) as [[m|]|bucketError|[]]; cbn; try done.
    by destruct (bucketFailure bucketError).
Qed.

(** X19 — [verifySupabaseConnection] never rejects.  It reports success
    exactly when the url and the key are not empty, [createClient] accepts
    them, the table answers the probe without error, and the bucket exists
    and is public.  A missing bucket (status 404, or a message with
    "not found" in any letter case) and a private bucket are each reported
    with their own message, and an [Error] that [createClient] throws with
    its message. *)
Theorem connection_test_outcome :
  forall pr url key,
    exists result,
      verifySupabaseConnection pr url key = Ret result /\
      (ConnectionResult.success result = true <->
       url <> "" /\ key <> "" /\
       probe_createClient_throws pr url key = None /\
       probe_table pr {| client_url := url; client_key := key |} = TableProbeOk /\
       probe_bucket pr {| client_url := url; client_key := key |} = BucketProbeData true) /\
      (forall bucketError,
         url <> "" -> key <> "" ->
         probe_createClient_throws pr url key = None ->
         probe_table pr {| client_url := url; client_key := key |} = TableProbeOk ->
         probe_bucket pr {| client_url := url; client_key := key |}
           = BucketProbeError bucketError ->
         (bucket_status bucketError = Some 404 \/
          exists message, bucket_message bucketError = Some message /\
                          Js.includes (Js.toLowerCase message) "not found" = true) ->
         result = ConnectionResult.mk false BUCKET_NOT_FOUND) /\
      (url <> "" -> key <> "" ->
       probe_createClient_throws pr url key = None ->
       probe_table pr {| client_url := url; client_key := key |} = TableProbeOk ->
       probe_bucket pr {| client_url := url; client_key := key |} = BucketProbeData false ->
       result = ConnectionResult.mk false BUCKET_NOT_PUBLIC) /\
      (forall message,
         url <> "" -> key <> "" ->
         probe_createClient_throws pr url key = Some (Error message) ->
         result = ConnectionResult.mk false message).
Proof.
  intros pr url key. eexists. split; [apply verifySupabaseConnection_cases|].
  destruct url as [|c url], key as [|d key]; cbn [Js.falsy orb].
  1-3: split; [split; [done|by intros (? & ? & _)]
              |split; [by intros|split; [by intros|by intros]]].
  cbv zeta.
  destruct (probe_createClient_throws pr _ _) as [[m|]|] eqn:Hc.
  1-2: split; [split; [done|by intros (_ & _ & ? & _)]
              |split; [by intros|split; [by intros|]]].
  { by intros message _ _ [= <-]. }
  { by intros message _ _ ?. }
  destruct (probe_table pr _) as [[m|]|message|] eqn:Ht.
  1-3: split; [split; [try done; by destruct (tableFailure message)
                      |by intros (_ & _ & _ & ? & _)]
              |split; [by intros|split; [by intros|by intros]]].
  destruct (probe_bucket pr _) as [[m|]|bucketError|[]] eqn:Hb.
  - split; [split; [done|by intros (_ & _ & _ & _ & ?)]
           |split; [by intros|split; [by intros|by intros]]].
  - split; [split; [done|by intros (_ & _ & _ & _ & ?)]
           |split; [by intros|split; [by intros|by intros]]].
  - split; [split; [by destruct (bucketFailure bucketError)
                   |by intros (_ & _ & _ & _ & ?)]|].
    split; [|split; [by intros|by intros]].
    intros bucketError' _ _ _ _ [= <-] Hcase. unfold bucketFailure.
    destruct Hcase as [->|(message & -> & ->)]; [done|].
    by rewrite orb_true_r.
  - split; [split; [done|by intros _]|split; [by intros|split; [by intros|by intros]]].
  - split; [split; [done|by intros (_ & _ & _ & _ & ?)]
           |split; [by intros|split; [by intros|by intros]]].
Qed.

Lemma verifySupabaseConnection_success pr url key result :
  verifySupabaseConnection pr url key = Ret result ->
  ConnectionResult.success result = true ->
  url <> "" /\ key <> "" /\
  probe_table pr {| client_url := url; client_key := key |} = TableProbeOk /\
  probe_bucket pr {| client_url := url; client_key := key |} = BucketProbeData true.
Proof.
  rewrite verifySupabaseConnection_cases. intros [= <-].
  destruct url as [|c url], key as [|d key]; cbn [Js.falsy orb]; try done.
  cbv zeta.
  destruct (probe_createClient_throws pr _ _) as [[m|]|]; try done.
  destruct (probe_table pr _) as [[m|]|message|]; try done;
    [by destruct (tableFailure message)|].
  destruct (probe_bucket pr _) as [[m|]|bucketError|[]]; try done.
  by destruct (bucketFailure bucketError).
Qed.

(** X20 — In the credentials form, with each handler finished before the
    next one starts and starting from a session that is not connected, the
    session is connected after a sequence of edits and tests only if the
    last thing done was a test, made with the url and key the
    session now holds, that found the table, and the bucket public; any
    edit of the url or the key after a test disconnects. *)
Theorem connected_only_after_passing_test :
  forall actions st,
    Session.isSupabaseConnected st.1 = false ->
    let after := fold_left managerStep actions st in
    Session.isSupabaseConnected after.1 = true ->
    exists earlier pr,
      actions = (earlier ++ [TestConnection pr])%list /\
      Session.supabaseUrl after.1 <> "" /\ Session.supabaseAnonKey after.1 <> "" /\
      probe_table pr {| client_url := Session.supabaseUrl after.1;
                        client_key := Session.supabaseAnonKey after.1 |} = TableProbeOk /\
      probe_bucket pr {| client_url := Session.supabaseUrl after.1;
                         client_key := Session.supabaseAnonKey after.1 |}
        = BucketProbeData true.
Proof.
  intros actions st Hstart. cbv zeta.
  induction actions as [|action earlier IH] using rev_ind.
  { cbn. congruence. }
  rewrite fold_left_app. cbn [fold_left].
  set (mid := fold_left managerStep earlier st) in *.
  destruct action as [value|value|pr]; [done|done|].
  cbn [managerStep]. unfold handleTestConnection.
  destruct mid as [s local] eqn:Hmid. cbn [fst snd] in *.
  destruct (Js.falsy (Session.supabaseUrl s) || Js.falsy (Session.supabaseAnonKey s)) eqn:Hempty.
  - cbn [fst]. intros Hconn. destruct (IH Hconn) as (_ & _ & _ & Hu & Hk & _).
    destruct (Session.supabaseUrl s), (Session.supabaseAnonKey s); done.
  - destruct (verifySupabaseConnection pr _ _) as [result|e] eqn:Hv.
    + destruct (ConnectionResult.success result) eqn:Hok; cbn [fst]; [|done].
      intros _. exists earlier, pr. split; [done|].
      by apply (verifySupabaseConnection_success pr _ _ result).
    + by rewrite verifySupabaseConnection_cases in Hv.
Qed.

(** The operator types the url and the key and tests a public project. *)
Lemma connected_only_after_passing_test_runs :
  exists earlier pr,
    typeAndTest = (earlier ++ [TestConnection pr])%list /\
    Session.supabaseUrl (fold_left managerStep typeAndTest blankForm).1 <> "" /\
    Session.supabaseAnonKey (fold_left managerStep typeAndTest blankForm).1 <> "" /\
    probe_table pr
      {| client_url := Session.supabaseUrl (fold_left managerStep typeAndTest blankForm).1;
         client_key := Session.supabaseAnonKey (fold_left managerStep typeAndTest blankForm).1 |}
      = TableProbeOk /\
    probe_bucket pr
      {| client_url := Session.supabaseUrl (fold_left managerStep typeAndTest blankForm).1;
         client_key := Session.supabaseAnonKey (fold_left managerStep typeAndTest blankForm).1 |}
      = BucketProbeData true.
Proof.
  exact (connected_only_after_passing_test typeAndTest blankForm eq_refl eq_refl).
Defined.

(** ** The memoised client *)

Lemma getSupabaseClientMemo_step throws m url key :
  moduleConsistent throws m ->
  (getSupabaseClientMemo throws m url key).1.1 = getSupabaseClient throws url key /\
  moduleConsistent throws (getSupabaseClientMemo throws m url key).1.2.
Proof.
  intros Hm. unfold getSupabaseClientMemo, getSupabaseClient.
  destruct (Js.falsy url || Js.falsy key); [done|]. cbv zeta.
  assert (Hrenewed :
    match createClient throws url key with
    | Throw e => (Throw e, m, true)
    | Ret client =>
        (Ret client,
         {| supabase := Some client; currentSupabaseUrl := Some url;
            currentSupabaseKey := Some key |}, true)
    end.1.1 = createClient throws url key /\
    moduleConsistent throws
      match createClient throws url key with
      | Throw e => (Throw e, m, true)
      | Ret client =>
          (Ret client,
           {| supabase := Some client; currentSupabaseUrl := Some url;
              currentSupabaseKey := Some key |}, true)
      end.1.2).
  { destruct (createClient throws url key) as [client|e] eqn:Hc; cbn [fst snd].
    - split; [done|]. unfold moduleConsistent. cbn. by exists url, key.
    - done. }
  pose proof Hm as Hm'. unfold moduleConsistent in Hm'.
  destruct (supabase m) as [client|] eqn:Hs; [|done].
  destruct Hm' as (u & k & Hu & Hk & Hclient).
  destruct (bool_decide (currentSupabaseUrl m = Some url)) eqn:Hurl; cbn [andb]; [|done].
  destruct (bool_decide (currentSupabaseKey m = Some key)) eqn:Hkey; [|done].
  apply bool_decide_eq_true in Hurl, Hkey.
  cbn [fst snd]. split; [|done]. congruence.
Qed.

(** Whether the call runs [createClient]: only with a url and a key, and
    then unless the module keeps the client of the same url and key. *)
Lemma getSupabaseClientMemo_created throws m url key :
  (getSupabaseClientMemo throws m url key).2 =
  negb (Js.falsy url || Js.falsy key) &&
  negb (bool_decide (is_Some (supabase m)) &&
        bool_decide (currentSupabaseUrl m = Some url) &&
        bool_decide (currentSupabaseKey m = Some key)).
Proof.
  unfold getSupabaseClientMemo.
  destruct (Js.falsy url || Js.falsy key); [done|]. cbv zeta.
  destruct (supabase m) as [client|] eqn:Hs.
  - rewrite (bool_decide_eq_true_2 (is_Some (Some client))) by by eexists.
    cbn [negb andb].
    destruct (bool_decide (currentSupabaseUrl m = Some url)),
             (bool_decide (currentSupabaseKey m = Some key)); cbn [andb negb];
      try done; by destruct (createClient throws url key).
  - rewrite (bool_decide_eq_false_2 (is_Some None)) by by intros [? ?].
    cbn [negb andb]. by destruct (createClient throws url key).
Qed.

(** After a call that returned a client, the module keeps it with its url
    and key; a call that threw left the module as it was. *)
Lemma getSupabaseClientMemo_kept throws m url key :
  match (getSupabaseClientMemo throws m url key).1.1 with
  | Ret client =>
      supabase (getSupabaseClientMemo throws m url key).1.2 = Some client /\
      currentSupabaseUrl (getSupabaseClientMemo throws m url key).1.2 = Some url /\
      currentSupabaseKey (getSupabaseClientMemo throws m url key).1.2 = Some key
  | Throw _ => (getSupabaseClientMemo throws m url key).1.2 = m
  end.
Proof.
  unfold getSupabaseClientMemo.
  destruct (Js.falsy url || Js.falsy key); [done|]. cbv zeta.
  destruct (supabase m) as [client|] eqn:Hs.
  - destruct (bool_decide (currentSupabaseUrl m = Some url)) eqn:Hurl; cbn [andb].
    + destruct (bool_decide (currentSupabaseKey m = Some key)) eqn:Hkey.
      * apply bool_decide_eq_true in Hurl, Hkey. by cbn [fst snd].
      * by destruct (createClient throws url key).
    + by destruct (createClient throws url key).
  - by destruct (createClient throws url key).
Qed.

Lemma clientCalls_answers throws m requests :
  moduleConsistent throws m ->
  fst <$> clientCalls throws m requests =
  (fun request => getSupabaseClient throws request.1 request.2) <$> requests.
Proof.
  revert m. induction requests as [|[url key] requests IH]; intros m Hm; [done|].
  cbn [clientCalls].
  destruct (getSupabaseClientMemo_step throws m url key Hm) as [Hr Hm'].
  destruct (getSupabaseClientMemo throws m url key) as [[r m'] created].
  cbn [fst snd] in *. cbn. by rewrite Hr, (IH m' Hm').
Qed.

Lemma clientCalls_repeat throws m requests i url key :
  moduleConsistent throws m ->
  requests !! i = Some (url, key) ->
  requests !! S i = Some (url, key) ->
  snd <$> clientCalls throws m requests !! S i =
    Some (match getSupabaseClient throws url key with
          | Ret _ => false
          | Throw _ => negb (Js.falsy url || Js.falsy key)
          end).
Proof.
  revert m i. induction requests as [|[u k] requests IH]; intros m i Hm; [done|].
  cbn [clientCalls].
  destruct (getSupabaseClientMemo_step throws m u k Hm) as [Hr Hm'].
  pose proof (getSupabaseClientMemo_kept throws m u k) as Hkept.
  destruct (getSupabaseClientMemo throws m u k) as [[r m'] created].
  cbn [fst snd] in Hr, Hm', Hkept.
  destruct i as [|i].
  - intros [= -> ->] Hnext. destruct requests as [|[u' k'] requests]; [done|].
    injection Hnext as -> ->. cbn [clientCalls lookup list_lookup].
    pose proof (getSupabaseClientMemo_created throws m' url key) as Hcreated.
    destruct (getSupabaseClientMemo throws m' url key) as [[r' m''] created'].
    cbn [fst snd] in Hcreated. cbn. f_equal. rewrite Hcreated, <- Hr. clear Hcreated.
    destruct r as [client|e].
    + destruct Hkept as (-> & -> & ->).
      rewrite !bool_decide_eq_true_2 by (done || by eexists).
      cbn [andb negb]. apply andb_false_r.
    + subst m'. destruct (Js.falsy url || Js.falsy key) eqn:Hvalid; [done|].
      cbn [negb andb]. f_equal.
      destruct (supabase m) as [client|] eqn:Hs.
      * unfold moduleConsistent in Hm. rewrite Hs in Hm.
        destruct Hm as (u & k & Hu & Hk & Hclient).
        destruct (bool_decide (currentSupabaseUrl m = Some url)) eqn:Hurl;
          [|by rewrite andb_false_r].
        destruct (bool_decide (currentSupabaseKey m = Some key)) eqn:Hkey;
          [|by rewrite andb_false_r].
        apply bool_decide_eq_true in Hurl, Hkey.
        unfold getSupabaseClient in Hr. rewrite Hvalid in Hr.
        congruence.
      * by rewrite (bool_decide_eq_false_2 (is_Some None)) by by intros [? ?].
  - intros Hi Hnext. cbn. by apply (IH m' i).
Qed.

Lemma freshModule_consistent throws : moduleConsistent throws freshModule.
Proof. done. Qed.

(** X21 — The client [getSupabaseClient] keeps between calls never shows:
    from a fresh module, every call of any sequence answers as a call that
    runs [createClient] itself, rejecting on an empty url or key, throwing
    what [createClient] throws and otherwise returning the client of the
    url and key it was given.  A call that repeats the url and key of the
    call before it runs no [createClient] when these gave a client, and
    runs it again when [createClient] throws for them: a throw leaves no
    client behind. *)
Theorem kept_client_is_the_one_asked_for :
  forall throws requests,
    fst <$> clientCalls throws freshModule requests =
      (fun request => getSupabaseClient throws request.1 request.2) <$> requests /\
    (forall i url key client,
       requests !! i = Some (url, key) ->
       requests !! S i = Some (url, key) ->
       getSupabaseClient throws url key = Ret client ->
       snd <$> clientCalls throws freshModule requests !! S i = Some false) /\
    (forall i url key e,
       requests !! i = Some (url, key) ->
       requests !! S i = Some (url, key) ->
       url <> "" -> key <> "" -> throws url key = Some e ->
       getSupabaseClient throws url key = Throw e /\
       snd <$> clientCalls throws freshModule requests !! S i = Some true).
Proof.
  intros throws requests. split; [|split].
  - apply clientCalls_answers, freshModule_consistent.
  - intros i url key client Hi Hnext Hclient.
    rewrite (clientCalls_repeat throws freshModule requests i url key
               (freshModule_consistent throws) Hi Hnext).
    by rewrite Hclient.
  - intros i url key e Hi Hnext Hurl Hkey He.
    assert (Hthrow : getSupabaseClient throws url key = Throw e).
    { apply getSupabaseClient_Throw. by right. }
    split; [done|].
    rewrite (clientCalls_repeat throws freshModule requests i url key
               (freshModule_consistent throws) Hi Hnext).
    rewrite Hthrow. by destruct url, key.
Qed.

(** ** The system instruction *)

Section StringFacts.
Import Js.

Lemma append_cons c a b : String c a +:+ b = String c (a +:+ b).
Proof. reflexivity. Qed.

Lemma append_nil_r a : a +:+ "" = a.
Proof. induction a as [|c a IH]; [done|]. by rewrite append_cons, IH. Qed.

Lemma append_assoc a b c : (a +:+ b) +:+ c = a +:+ b +:+ c.
Proof. induction a as [|d a IH]; [done|]. by rewrite !append_cons, IH. Qed.

Lemma startsWith_iff s p : startsWith s p = true <-> exists b, s = p +:+ b.
Proof.
  revert s. induction p as [|c p IH]; intros s.
  - split; [intros _; by exists s|]. by destruct s.
  - destruct s as [|d s]; cbn [startsWith].
    + split; [done|]. by intros [b Hb].
    + destruct (Ascii.eqb c d) eqn:Hcd.
      * apply Ascii.eqb_eq in Hcd as ->. rewrite IH. split.
        -- intros [b ->]. by exists b.
        -- intros [b Hb]. rewrite append_cons in Hb. injection Hb as ->. by exists b.
      * split; [done|]. intros [b Hb]. rewrite append_cons in Hb. injection Hb as -> _.
        by rewrite Ascii.eqb_refl in Hcd.
Qed.

(** [s.includes(p)] holds exactly when [p] lies somewhere in [s]. *)
Lemma includes_iff s p : includes s p = true <-> exists a b, s = a +:+ p +:+ b.
Proof.
  split.
  - induction s as [|c s IH]; rewrite includes_unfold; intros H;
      apply orb_true_iff in H as [H|H].
    + apply startsWith_iff in H as [b ->]. by exists "", b.
    + done.
    + apply startsWith_iff in H as [b ->]. by exists "", b.
    + destruct (IH H) as (a & b & ->). by exists (String c a), b.
  - intros (a & b & ->). induction a as [|c a IH].
    + rewrite includes_unfold. apply orb_true_iff. left.
      apply startsWith_iff. by exists b.
    + rewrite append_cons, includes_unfold, IH. apply orb_true_r.
Qed.

Lemma includes_trans s t p :
  includes s t = true -> includes t p = true -> includes s p = true.
Proof.
  rewrite !includes_iff. intros (a & b & ->) (a' & b' & ->).
  exists (a +:+ a'), (b' +:+ b). by rewrite !append_assoc.
Qed.

Lemma includes_app_r a s p : includes s p = true -> includes (a +:+ s) p = true.
Proof.
  rewrite !includes_iff. intros (a' & b & ->). exists (a +:+ a'), b.
  by rewrite !append_assoc.
Qed.

Lemma includes_app_l s b p : includes s p = true -> includes (s +:+ b) p = true.
Proof.
  rewrite !includes_iff. intros (a & b' & ->). exists a, (b' +:+ b).
  by rewrite !append_assoc.
Qed.

Lemma includes_refl s : includes s s = true.
Proof. apply includes_iff. exists "", "". by rewrite append_nil_r. Qed.

Lemma includes_concat sep lines line :
  line ∈ lines -> includes (String.concat sep lines) line = true.
Proof.
  induction lines as [|x lines IH]; [by intros ?%elem_of_nil|].
  intros Hin. cbn [String.concat]. destruct lines as [|y lines].
  - apply elem_of_cons in Hin as [->|?%elem_of_nil]; [|done]. apply includes_refl.
  - apply elem_of_cons in Hin as [->|Hin].
    + apply includes_app_l, includes_refl.
    + by apply includes_app_r, includes_app_r, IH.
Qed.
End StringFacts.

(** X22 — The system instruction always begins with the persona text and is
    that text alone when there is no example.  With examples, the line of
    every example is part of the instruction, and with it the example's top
    text, bottom text and image prompt: no approved example is dropped from
    the request. *)
Theorem examples_reach_the_instruction :
  forall examples,
    createSystemInstruction [] = SYSTEM_INSTRUCTION /\
    Js.startsWith (createSystemInstruction examples) SYSTEM_INSTRUCTION = true /\
    (forall ex, ex ∈ examples ->
       Js.includes (createSystemInstruction examples) (exampleLine ex) = true /\
       Js.includes (createSystemInstruction examples) (MemeConcept.topText ex) = true /\
       Js.includes (createSystemInstruction examples) (MemeConcept.bottomText ex) = true /\
       Js.includes (createSystemInstruction examples) (MemeConcept.imagePrompt ex) = true).
Proof.
  intros examples. split; [done|]. split.
  - apply startsWith_iff. destruct examples as [|e examples].
    + exists "". by rewrite append_nil_r.
    + by eexists.
  - intros ex Hin.
    assert (Hline : Js.includes (createSystemInstruction examples) (exampleLine ex) = true).
    { destruct examples as [|e examples]; [by apply elem_of_nil in Hin|].
      unfold createSystemInstruction.
      do 5 apply includes_app_r.
      apply includes_concat. by apply (list_elem_of_fmap_2 exampleLine). }
    split; [done|]. unfold exampleLine in *. repeat split.
    + eapply includes_trans; [exact Hline|].
      do 2 apply includes_app_r. apply includes_app_l, includes_refl.
    + eapply includes_trans; [exact Hline|].
      do 6 apply includes_app_r. apply includes_app_l, includes_refl.
    + eapply includes_trans; [exact Hline|].
      do 10 apply includes_app_r. apply includes_app_l, includes_refl.
Qed.

(** ** Batches and the OpenAI key *)

(** X23 — Without an OpenAI key a batch over a non-empty list of concepts is
    always assembled, whatever the estimate and whatever the services
    answer, and every artifact is made by the Gemini path and reports
    gemini, also at the indices scheduled to dalle. *)
Theorem keyless_batch_is_all_gemini :
  forall rt concepts p,
    concepts <> [] ->
    exists memes,
      processConceptsIntoMemes rt (Ret (Some concepts)) p "" = Ret memes /\
      length memes = length concepts /\
      forall index meme,
        memes !! index = Some meme ->
        GeneratedMeme.modelUsed meme = gemini /\
        exists concept,
          concepts !! index = Some concept /\
          generateImage (world rt index) (MemeConcept.imagePrompt concept)
            = Ret (GeneratedMeme.imageUrl meme).
Proof.
  intros rt concepts p Hne.
  assert (Hret : returns (processConceptsIntoMemes rt (Ret (Some concepts)) p "")).
  { rewrite processConcepts_unfold by done.
    apply Promise_all_returns, Forall_lookup. intros i pr.
    rewrite list_lookup_imap. destruct (concepts !! i) as [c|]; [|done].
    intros [= <-]. apply memePromise_returns. intros _. by eexists. }
  destruct Hret as [memes Hmemes]. exists memes. split; [done|].
  destruct (processConcepts_Ret _ _ _ _ _ Hne Hmemes) as [Hlen Hat].
  split; [done|]. intros index meme Hi.
  destruct (Hat index meme Hi) as (c & Hc & Hp).
  apply memePromise_Ret in Hp as (_ & _ & _ & r & Hr & Himg & Hmodel).
  rewrite Himg, Hmodel. rewrite fallback_unfold in Hr.
  destruct (generateImage_returns (world rt index) (MemeConcept.imagePrompt c)) as [img Hg].
  rewrite Hg in Hr.
  assert (r = ImageResult.mk img gemini) as ->.
  { destruct (scheduledModel p index); cbn in Hr; by injection Hr as <-. }
  split; [done|]. by exists c.
Qed.

(** Five concepts, the estimate (2, 3), no key: five artifacts by gemini. *)
Lemma keyless_batch_is_all_gemini_runs :
  exists memes,
    processConceptsIntoMemes workingRuntime (Ret (Some fiveConcepts))
      (Preference.mk 2 3) "" = Ret memes /\
    length memes = 5 /\
    forall index meme,
      memes !! index = Some meme ->
      GeneratedMeme.modelUsed meme = gemini /\
      exists concept,
        fiveConcepts !! index = Some concept /\
        generateImage (world workingRuntime index) (MemeConcept.imagePrompt concept)
          = Ret (GeneratedMeme.imageUrl meme).
Proof.
  apply (keyless_batch_is_all_gemini workingRuntime fiveConcepts (Preference.mk 2 3)).
  discriminate.
Defined.

(** X24 — A batch over a non-empty list of concepts rejects only when a key
    is present and, for a concept scheduled to dalle, OpenAI answered with
    status 200 and a body that is no JSON or is [null]; the error of the
    batch is the one of that answer. *)
Theorem batch_rejects_only_through_openai :
  forall rt concepts p key err,
    concepts <> [] ->
    processConceptsIntoMemes rt (Ret (Some concepts)) p key = Throw err ->
    key <> "" /\
    exists index concept,
      concepts !! index = Some concept /\
      scheduledModel p index = dalle /\
      (openai_fetch (world rt index)
         (MemeConcept.imagePrompt concept +:+
          ". IMPORTANT: The generated image must not contain any text, letters, words, or numbers. It should be purely visual.")
         key = HttpResponse true (NotJson err) \/
       (openai_fetch (world rt index)
          (MemeConcept.imagePrompt concept +:+
           ". IMPORTANT: The generated image must not contain any text, letters, words, or numbers. It should be purely visual.")
          key = HttpResponse true JsonNull /\ err = TypeError)).
Proof.
  intros rt concepts p key err Hne Hthrow.
  destruct (processConcepts_Throw _ _ _ _ _ Hne Hthrow) as (index & concept & Hc & Hs & Hk & Hd).
  split; [done|]. exists index, concept. split; [done|]. split; [done|].
  by apply generateImageWithDalle_Throw in Hd as [_ Hd].
Qed.

(** The batch of the runtime whose OpenAI answers index 3 with no JSON. *)
Lemma batch_rejects_only_through_openai_runs :
  "sk-1" <> "" /\
  exists index concept,
    fiveConcepts !! index = Some concept /\
    scheduledModel (Preference.mk 3 2) index = dalle /\
    (openai_fetch (world brokenRuntime index)
       (MemeConcept.imagePrompt concept +:+
        ". IMPORTANT: The generated image must not contain any text, letters, words, or numbers. It should be purely visual.")
       "sk-1" = HttpResponse true (NotJson (Error "Unexpected token < in JSON at position 0")) \/
     (openai_fetch (world brokenRuntime index)
        (MemeConcept.imagePrompt concept +:+
         ". IMPORTANT: The generated image must not contain any text, letters, words, or numbers. It should be purely visual.")
        "sk-1" = HttpResponse true JsonNull /\
      Error "Unexpected token < in JSON at position 0" = TypeError)).
Proof.
  apply (batch_rejects_only_through_openai brokenRuntime fiveConcepts (Preference.mk 3 2)
           "sk-1" (Error "Unexpected token < in JSON at position 0")).
  - discriminate.
  - reflexivity.
Defined.

(** ** Data URLs *)

Section DataUrls.
Import Js.

Lemma split_without c s : without c s = true -> split c s = [s].
Proof.
  induction s as [|d s IH]; [done|]. cbn [without split].
  intros [Hd Hs]%andb_true_iff. apply negb_true_iff in Hd. rewrite Hd.
  by rewrite (IH Hs).
Qed.

Lemma split_prefix c a s :
  without c a = true ->
  split c (a +:+ s) =
  match split c s with
  | w :: ws => (a +:+ w) :: ws
  | [] => [a]
  end.
Proof.
  induction a as [|d a IH]; intros Ha.
  - change ("" +:+ s) with s. destruct (split c s) eqn:Hs; [|done].
    by destruct s as [|e s]; cbn in Hs; repeat case_match.
  - cbn [without] in Ha. apply andb_true_iff in Ha as [Hd Ha].
    apply negb_true_iff in Hd. rewrite append_cons. cbn [split]. rewrite Hd, (IH Ha).
    by destruct (split c s).
Qed.

(** The second comma-separated piece of a base64 data URL is its payload. *)
Lemma split_data_url mime payload :
  without "," mime = true -> without "," payload = true ->
  split "," ("data:" +:+ mime +:+ ";base64," +:+ payload) !! 1 = Some payload.
Proof.
  intros Hm Hp.
  rewrite (split_prefix "," "data:") by done.
  rewrite (split_prefix "," mime) by done.
  change (";base64," +:+ payload) with (";base64" +:+ String "," payload).
  rewrite (split_prefix "," ";base64") by done.
  cbn [split]. rewrite Ascii.eqb_refl. by rewrite (split_without _ _ Hp).
Qed.
End DataUrls.

(** X25 — For a meme whose image is a base64 data URL, with no comma in the
    media type and none in the payload, and a project with url and key that
    [createClient] accepts, [addApprovedMeme] uploads what [atob] makes of
    the payload; whatever the media type says, the blob is typed and the
    file named PNG when the URL begins with [data:image/png] and JPEG
    otherwise.  When [createClient] throws or [atob] refuses the payload
    nothing is sent. *)
Theorem data_url_payload_is_uploaded :
  forall be newMeme url key mime payload,
    GeneratedMeme.imageUrl newMeme = "data:" +:+ mime +:+ ";base64," +:+ payload ->
    without "," mime = true -> without "," payload = true ->
    url <> "" -> key <> "" ->
    match createClient_throws be url key, atob be payload with
    | None, Some byteCharacters =>
        (addApprovedMeme be newMeme url key).1 !! 0 =
          Some (Upload ("public/" +:+ GeneratedMeme.id newMeme +:+ "." +:+
                        extensionOf (GeneratedMeme.imageUrl newMeme))
                  {| blob_bytes := byteCharacters;
                     blob_type := "image/" +:+ extensionOf (GeneratedMeme.imageUrl newMeme) |})
    | _, _ => (addApprovedMeme be newMeme url key).1 = []
    end.
Proof.
  intros be newMeme url key mime payload Himg Hm Hp Hu Hk.
  assert (Hsplit : Js.split "," (GeneratedMeme.imageUrl newMeme) !! 1 = Some payload).
  { rewrite Himg. by apply split_data_url. }
  unfold addApprovedMeme, getSupabaseClient, createClient, base64ToBlob, extensionOf.
  destruct url as [|c url], key as [|d key]; try done. cbn [Js.falsy orb].
  destruct (createClient_throws be _ _) as [e|]; [done|].
  rewrite Hsplit. change (default "undefined" (Some payload)) with payload.
  destruct (atob be payload) as [bytes|]; [|done].
  destruct (Js.startsWith (GeneratedMeme.imageUrl newMeme) "data:image/png").
  all: destruct (storage_upload be _ _ _); [done|].
  all: by destruct (table_insert be _ _).
Qed.

(** The sample PNG meme: its payload is what reaches the bucket. *)
Lemma data_url_payload_is_uploaded_runs :
  (addApprovedMeme (sampleBackend None None) (sampleMeme "id-1" pending)
     "https://kmfny.supabase.co" "anon-key").1 !! 0 =
    Some (Upload "public/id-1.png"
            {| blob_bytes := "iVBORw0KGgo"; blob_type := "image/png" |}).
Proof.
  exact (data_url_payload_is_uploaded (sampleBackend None None) (sampleMeme "id-1" pending)
           "https://kmfny.supabase.co" "anon-key" "image/png" "iVBORw0KGgo"
           eq_refl eq_refl eq_refl ltac:(discriminate) ltac:(discriminate)).
Defined.

(** ** The images a meme can carry *)

Lemma find_hasInlineData_Some parts part :
  List.find hasInlineData parts = Some part ->
  exists before after i,
    parts = (before ++ part :: after)%list /\
    Forall (fun p => inlineData p = None) before /\
    inlineData part = Some i.
Proof.
  induction parts as [|p parts IH]; [done|]. cbn [List.find]. unfold hasInlineData at 1.
  destruct (inlineData p) as [i|] eqn:Hp.
  - intros [= <-]. by exists [], parts, i.
  - intros (before & after & i & -> & Hbefore & Hpart)%IH.
    exists (p :: before), after, i. split; [done|]. split; [|done].
    by constructor.
Qed.

Lemma find_hasInlineData_first before part after i :
  Forall (fun p => inlineData p = None) before ->
  inlineData part = Some i ->
  List.find hasInlineData (before ++ part :: after)%list = Some part.
Proof.
  intros Hbefore Hpart. induction Hbefore as [|p before Hp _ IH]; cbn [app List.find].
  - unfold hasInlineData. by rewrite Hpart.
  - unfold hasInlineData at 1. by rewrite Hp.
Qed.

(** X26 — An image the OpenAI path returns is its placeholder or the PNG data
    URL of the non-empty [b64_json] the service answered with, and that
    answer is always returned as such.  An image the Gemini path returns is
    its placeholder or the data URL of the first part of the answer that
    carries inline data, with the media type and the data of that part, and
    an answer with such a part is always returned as that URL.  On approval
    a PNG data URL is stored as PNG, and each placeholder, an SVG data URL,
    is stored under the extension and the type of a JPEG. *)
Theorem images_are_placeholders_or_data_urls :
  forall w prompt key imageUrl,
    let dallePrompt :=
      prompt +:+ ". IMPORTANT: The generated image must not contain any text, letters, words, or numbers. It should be purely visual." in
    let geminiPrompt :=
      "In a vibrant, high contrast, pop art meme aesthetic: " +:+ prompt +:+
      ". IMPORTANT: The generated image must not contain any text, letters, words, or numbers. It should be purely visual." in
    (generateImageWithDalle w prompt key = Ret imageUrl ->
     imageUrl = DALLE_PLACEHOLDER_IMAGE_URL \/
     exists b64,
       b64 <> "" /\ key <> "" /\
       openai_fetch w dallePrompt key = HttpResponse true (JsonValue (Some b64)) /\
       imageUrl = "data:image/png;base64," +:+ b64 /\
       extensionOf imageUrl = "png") /\
    (forall b64,
       b64 <> "" -> key <> "" ->
       openai_fetch w dallePrompt key = HttpResponse true (JsonValue (Some b64)) ->
       generateImageWithDalle w prompt key = Ret ("data:image/png;base64," +:+ b64)) /\
    (generateImage w prompt = Ret imageUrl ->
     imageUrl = GEMINI_PLACEHOLDER_IMAGE_URL \/
     exists before part after i,
       gemini_image w geminiPrompt = ImageResolves (Some (before ++ part :: after)%list) /\
       Forall (fun p => inlineData p = None) before /\
       inlineData part = Some i /\
       imageUrl = "data:" +:+ mimeType i +:+ ";base64," +:+ data i) /\
    (forall before part after i,
       gemini_image w geminiPrompt = ImageResolves (Some (before ++ part :: after)%list) ->
       Forall (fun p => inlineData p = None) before ->
       inlineData part = Some i ->
       generateImage w prompt = Ret ("data:" +:+ mimeType i +:+ ";base64," +:+ data i)) /\
    extensionOf DALLE_PLACEHOLDER_IMAGE_URL = "jpeg" /\
    extensionOf GEMINI_PLACEHOLDER_IMAGE_URL = "jpeg".
Proof.
  intros w prompt key imageUrl dallePrompt geminiPrompt.
  split; [|split; [|split; [|split; [|split; reflexivity]]]].
  - unfold generateImageWithDalle. fold dallePrompt.
    destruct key as [|k key]; [intros [= <-]; by left|]. cbn [Js.falsy].
    destruct (openai_fetch w _ _) as [e|[] [e| |[[|c b]|]]]; cbn; try done;
      try (intros [= <-]; by left).
    intros [= <-]. right. by exists (String c b).
  - intros b64 Hb Hkey Hfetch. unfold generateImageWithDalle. fold dallePrompt.
    destruct key as [|k key]; [done|]. cbn [Js.falsy]. rewrite Hfetch.
    by destruct b64.
  - unfold generateImage. fold geminiPrompt.
    destruct (gemini_image w geminiPrompt) as [e|[parts|]]; cbn;
      [intros [= <-]; by left| |intros [= <-]; by left].
    destruct (List.find hasInlineData parts) as [part|] eqn:Hfind; cbn;
      [|intros [= <-]; by left].
    apply find_hasInlineData_Some in Hfind as (before & after & i & -> & Hbefore & Hpart).
    rewrite Hpart. intros [= <-]. right. by exists before, part, after, i.
  - intros before part after i Hanswer Hbefore Hpart.
    unfold generateImage. fold geminiPrompt. rewrite Hanswer. cbn.
    rewrite (find_hasInlineData_first before part after i Hbefore Hpart). cbn.
    by rewrite Hpart.
Qed.

(** ** The mail to the admin *)

(** X27 — [handleSendEmail] sends a mail exactly when no send is in flight
    and the session holds a meme.  The mail then lists every meme of the
    session in order with the status it has, rejected memes included, the
    mail flag is raised, the error cleared, and the memes stay as they are;
    since the simulated send always resolves, no error is ever set. *)
Theorem operator_mail_lists_every_meme :
  forall a,
    let after := (handleSendEmail a).1 in
    let mails := (handleSendEmail a).2 in
    (mails <> [] <->
     App.isSendingEmail a = false /\ Session.memes (App.session a) <> []) /\
    (mails = [] -> after = a) /\
    (forall mail, mail ∈ mails ->
       mails = [mail] /\
       recipient mail = "admin@kissmyfacenewyork.com" /\
       subject mail = "New Memes for Approval" /\
       (fun item => (item_id item, item_status item)) <$> emailContent mail =
         (fun meme => (GeneratedMeme.id meme, GeneratedMeme.status meme))
           <$> Session.memes (App.session a) /\
       Session.emailSent (App.session after) = true /\
       Session.error (App.session after) = None /\
       App.isSendingEmail after = false /\
       Session.memes (App.session after) = Session.memes (App.session a)).
Proof.
  intros a after mails. subst after mails. unfold handleSendEmail.
  destruct (App.isSendingEmail a) eqn:Hsending; cbn [orb].
  { split; [split; [done|by intros [? _]]|]. split; [done|]. by intros mail ?%elem_of_nil. }
  destruct (Session.memes (App.session a)) as [|m memes] eqn:Hmemes; cbn.
  { split; [split; [done|by intros [_ ?]]|]. split; [done|]. by intros mail ?%elem_of_nil. }
  split; [done|]. split; [done|].
  intros mail [->|?%elem_of_nil]%elem_of_cons; [|done].
  repeat split; try done. cbn. f_equal.
  rewrite <-list_fmap_compose. done.
Qed.
